(** * The Lost Temple of Data: the journal extractors of [adventure.py]

    [extract_journal_dates] and [extract_secret_codes] each hand one regular
    expression to [re.findall].  The development embeds

    - Python text as a list of Unicode code points,
    - the part of [re] the two patterns use (literals, character sets,
      [\d], [\b], groups, alternation, bounded repetition) as a
      backtracking matcher that lists its outcomes in priority order,
    - the scanning loop of [re.finditer] / [re.findall],
    - the two functions of the module on top of these,

    and then proves the properties of the two extractors. *)

From Stdlib Require Import String Ascii List NArith Bool Arith Lia Sorted.
From Stdlib.Strings Require Import Byte.
Import ListNotations.
Local Open Scope N_scope.
Local Open Scope list_scope.

(** ** Text *)

(** A Python [str] is a sequence of code points. *)
Definition char := N.
Definition str := list char.

(** An ASCII character stands for its code point: ["A"] is 65. *)
Definition char_of_bytes (l : list Byte.byte) : option N :=
  match l with
  | [b] => Some (Byte.to_N b)
  | _ => None
  end.

Definition bytes_of_char (c : N) : option (list Byte.byte) :=
  option_map (fun b => [b]) (Byte.of_N c).

Declare Scope char_code_scope.
Delimit Scope char_code_scope with c.
String Notation N char_of_bytes bytes_of_char : char_code_scope.
Bind Scope char_code_scope with char.

(** The code point of an ASCII character, and the text of an ASCII literal. *)
Definition chr (a : ascii) : char := N_of_ascii a.
Definition py (s : string) : str := map chr (list_ascii_of_string s).

(** [sep.join(parts)] *)
Fixpoint join (sep : str) (parts : list str) : str :=
  match parts with
  | [] => []
  | [p] => p
  | p :: ps => p ++ sep ++ join sep ps
  end.

(** The character before a position: the last one of what was read, or the
    one that was before that. *)
Definition last_char (prev : option char) (w : str) : option char :=
  fold_left (fun _ c => Some c) w prev.

(** ** The Unicode character database

    [re] classifies the characters of a [str] with the interpreter's Unicode
    tables.  Below 128 these are ASCII and written out here; above, the
    tables are those of the interpreter running the program and are taken
    as they come. *)
Record unicode_db := UnicodeDb {
  ucd_isalpha : char -> bool;
  ucd_todecimal : char -> option N;
  ucd_isdigit : char -> bool;
  ucd_isnumeric : char -> bool;
  (** [Py_UNICODE_TODECIMAL] is -1 or a digit value *)
  ucd_todecimal_range : forall c v, ucd_todecimal c = Some v -> v < 10
}.

(** The database that knows no character outside ASCII. *)
Definition ascii_only : unicode_db.
Proof.
  refine (UnicodeDb (fun _ => false) (fun _ => None)
                    (fun _ => false) (fun _ => false) _).
  intros c v H; discriminate H.
Defined.

Definition is_char (x c : char) : bool := c =? x.
Definition in_range (lo hi c : char) : bool := (lo <=? c) && (c <=? hi).

Definition ascii_isdigit (c : char) : bool := in_range "0" "9" c.
Definition ascii_isalpha (c : char) : bool :=
  in_range "A" "Z" c || in_range "a" "z" c.

Section Classes.
Variable U : unicode_db.

(** [Py_UNICODE_TODECIMAL] *)
Definition to_decimal (c : char) : option N :=
  if c <? 128 then (if ascii_isdigit c then Some (c - "0"%c) else None)
  else ucd_todecimal U c.

(** [Py_UNICODE_ISDECIMAL]: what [\d] accepts in a [str] pattern. *)
Definition is_decimal (c : char) : bool :=
  match to_decimal c with Some _ => true | None => false end.

(** [Py_UNICODE_ISALNUM] *)
Definition is_alnum (c : char) : bool :=
  if c <? 128 then ascii_isalpha c || ascii_isdigit c
  else ucd_isalpha U c || is_decimal c || ucd_isdigit U c || ucd_isnumeric U c.

(** [SRE_UNI_IS_WORD]: what [\w] accepts, and what [\b] looks at. *)
Definition is_word (c : char) : bool := is_alnum c || is_char "_" c.

Definition is_word_opt (c : option char) : bool :=
  match c with Some x => is_word x | None => false end.

(** [\b]: exactly one of the two neighbours is a word character; beyond
    either end of the text there is none. *)
Definition at_boundary (prev next : option char) : bool :=
  xorb (is_word_opt prev) (is_word_opt next).
End Classes.

(** ** Regular expressions *)

Inductive set_item :=
| One (c : char)            (* a character of a set: [12] *)
| Range (lo hi : char).     (* a range of a set: [0-9] *)

Inductive regex :=
| Lit (c : char)                 (* a literal character *)
| OneOf (items : list set_item)  (* [...] *)
| Digit                          (* \d *)
| WordB                          (* \b *)
| Seq (r1 r2 : regex)            (* r1 r2 *)
| Alt (r1 r2 : regex)            (* r1|r2 *)
| Group (n : nat) (r : regex)    (* (r), the n-th group, from 1 *)
| Repeat (n : nat) (r : regex).  (* r{n} *)

Declare Scope regex_scope.
Delimit Scope regex_scope with re.
Bind Scope regex_scope with regex.
Infix ";;" := Seq (at level 60, right associativity) : regex_scope.
Infix "<|>" := Alt (at level 70, right associativity) : regex_scope.

Definition item_matches (c : char) (i : set_item) : bool :=
  match i with
  | One x => is_char x c
  | Range lo hi => in_range lo hi c
  end.

(** The text of the groups, the n-th at index n-1; a group that took no part
    in the match reads as the empty string, as [findall] reports it. *)
Definition groups := list str.

Fixpoint set_group (n : nat) (w : str) (g : groups) : groups :=
  match n, g with
  | _, [] => []
  | O, _ => g
  | S O, _ :: g' => w :: g'
  | S n', x :: g' => x :: set_group n' w g'
  end.

(** One way a (sub)pattern can match at a position: what it consumed, what
    is left of the text, and the groups. *)
Record outcome := Outcome {
  o_read : str;
  o_rest : str;
  o_groups : groups
}.

(** ** The patterns of the module *)

(** [0[1-9]|1[0-2]] *)
Definition month_field : regex :=
  ((Lit "0" ;; OneOf [Range "1" "9"]) <|> (Lit "1" ;; OneOf [Range "0" "2"]))%re.

(** [0[1-9]|[12][0-9]|3[01]] *)
Definition day_field : regex :=
  ((Lit "0" ;; OneOf [Range "1" "9"])
   <|> (OneOf [One "1"; One "2"] ;; OneOf [Range "0" "9"])
   <|> (Lit "3" ;; OneOf [One "0"; One "1"]))%re.

(** [[12]\d{3}] *)
Definition year_field : regex :=
  (OneOf [One "1"; One "2"] ;; Repeat 3 Digit)%re.

(** [r"\b(0[1-9]|1[0-2])/(0[1-9]|[12][0-9]|3[01])/([12]\d{3})\b"] *)
Definition date_pattern : regex :=
  (WordB ;; Group 1 month_field ;; Lit "/" ;; Group 2 day_field ;; Lit "/"
   ;; Group 3 year_field ;; WordB)%re.

(** [r"AZMAR-\d{3}"] *)
Definition code_pattern : regex :=
  (Lit "A" ;; Lit "Z" ;; Lit "M" ;; Lit "A" ;; Lit "R" ;; Lit "-" ;; Repeat 3 Digit)%re.

(** A match object: [m.start()], [m.end()], [m.group(0)], [m.groups()]. *)
Record match_obj := Match {
  m_start : nat;
  m_end : nat;
  m_whole : str;
  m_groups : groups
}.

Section Matcher.
Variable U : unicode_db.

Definition step_char (ok : char -> bool) (s : str) (g : groups) : list outcome :=
  match s with
  | c :: s' => if ok c then [Outcome [c] s' g] else []
  | [] => []
  end.

(** After an outcome of the first part, every outcome of the second. *)
Definition and_then (prev : option char)
    (k : option char -> str -> groups -> list outcome) (o : outcome) : list outcome :=
  map (fun o' => Outcome (o_read o ++ o_read o') (o_rest o') (o_groups o'))
      (k (last_char prev (o_read o)) (o_rest o) (o_groups o)).

(** All the ways [r] matches at the head of [s], the first being the one a
    backtracking engine settles on; [prev] is the character before. *)
Fixpoint exec (r : regex) (prev : option char) (s : str) (g : groups) : list outcome :=
  match r with
  | Lit c => step_char (is_char c) s g
  | OneOf items => step_char (fun c => existsb (item_matches c) items) s g
  | Digit => step_char (is_decimal U) s g
  | WordB => if at_boundary U prev (hd_error s) then [Outcome [] s g] else []
  | Seq r1 r2 => flat_map (and_then prev (exec r2)) (exec r1 prev s g)
  | Alt r1 r2 => exec r1 prev s g ++ exec r2 prev s g
  | Group n r1 =>
      map (fun o => Outcome (o_read o) (o_rest o) (set_group n (o_read o) (o_groups o)))
          (exec r1 prev s g)
  | Repeat n r1 =>
      (fix rep (k : nat) (prev : option char) (s : str) (g : groups) : list outcome :=
         match k with
         | O => [Outcome [] s g]
         | S k' => flat_map (and_then prev (rep k')) (exec r1 prev s g)
         end) n prev s g
  end.

(** The loop of [finditer]: try the pattern at the current position; on a
    match report it and go on from its end, otherwise move one character on.
    An empty match, which neither pattern of the module can produce, moves
    one character on as well.  The text length bounds the number of
    rounds. *)
Fixpoint scan (r : regex) (ngroups : nat) (fuel : nat)
    (prev : option char) (pos : nat) (s : str) : list match_obj :=
  match fuel with
  | O => []
  | S fuel' =>
      match exec r prev s (repeat [] ngroups) with
      | o :: _ =>
          Match pos (pos + length (o_read o)) (o_read o) (o_groups o) ::
          match o_read o with
          | _ :: _ =>
              scan r ngroups fuel' (last_char prev (o_read o))
                   (pos + length (o_read o)) (o_rest o)
          | [] =>
              match s with
              | c :: s' => scan r ngroups fuel' (Some c) (S pos) s'
              | [] => []
              end
          end
      | [] =>
          match s with
          | c :: s' => scan r ngroups fuel' (Some c) (S pos) s'
          | [] => []
          end
      end
  end.

Definition finditer (r : regex) (ngroups : nat) (text : str) : list match_obj :=
  scan r ngroups (S (length text)) None 0 text.

(** [re.findall] for a pattern without groups: the matched texts. *)
Definition findall_whole (r : regex) (text : str) : list str :=
  map m_whole (finditer r 0 text).

(** [re.findall] for a pattern with several groups: a tuple of the groups
    per match. *)
Definition findall_groups (r : regex) (ngroups : nat) (text : str) : list (list str) :=
  map m_groups (finditer r ngroups text).

(** ** The module *)

Definition extract_journal_dates (journal_text : str) : list str :=
  let found_dates := findall_groups date_pattern 3 journal_text in
  map (join (py "/")) found_dates.

Definition extract_secret_codes (journal_text : str) : list str :=
  let found_codes := findall_whole code_pattern journal_text in
  found_codes.
End Matcher.

(** ** Vocabulary of the properties *)

(** A month field: "01".."09" or "10".."12". *)
Definition is_month (a b : char) : bool :=
  (is_char "0" a && in_range "1" "9" b) || (is_char "1" a && in_range "0" "2" b).

(** A day field: "01".."09", "10".."29", "30" or "31". *)
Definition is_day (a b : char) : bool :=
  (is_char "0" a && in_range "1" "9" b)
  || ((is_char "1" a || is_char "2" a) && in_range "0" "9" b)
  || (is_char "3" a && (is_char "0" b || is_char "1" b)).

Section Vocabulary.
Variable U : unicode_db.

(** A year field: "1" or "2", then three decimal digits. *)
Definition is_year (a b c d : char) : bool :=
  (is_char "1" a || is_char "2" a) && is_decimal U b && is_decimal U c && is_decimal U d.

(** A date token: MM/DD/YYYY with the three fields as above. *)
Definition is_date_token (w : str) : bool :=
  match w with
  | [m1; m2; s1; d1; d2; s2; y1; y2; y3; y4] =>
      is_month m1 m2 && is_char "/" s1 && is_day d1 d2 && is_char "/" s2
      && is_year y1 y2 y3 y4
  | _ => false
  end.

(** The three fields of a date token. *)
Definition date_fields (w : str) : groups :=
  [firstn 2 w; firstn 2 (skipn 3 w); firstn 4 (skipn 6 w)].

(** A date token stands at the head of [s], after [prev], with a word
    boundary before it and after it. *)
Definition date_here (prev : option char) (s : str) : bool :=
  at_boundary U prev (hd_error s) && is_date_token (firstn 10 s)
  && at_boundary U (last_char prev (firstn 10 s)) (hd_error (skipn 10 s)).

(** A secret code: "AZMAR-" and three decimal digits. *)
Definition is_code_token (w : str) : bool :=
  match w with
  | [a; z; m; a'; r; h; d1; d2; d3] =>
      is_char "A" a && is_char "Z" z && is_char "M" m && is_char "A" a' && is_char "R" r
      && is_char "-" h && is_decimal U d1 && is_decimal U d2 && is_decimal U d3
  | _ => false
  end.

(** A secret code stands at the head of [s]. *)
Definition code_here (s : str) : bool := is_code_token (firstn 9 s).

(** The number a string of decimal digits denotes, as [int] reads it. *)
Definition int_of (w : str) : option N :=
  fold_left (fun acc c =>
               match acc, to_decimal U c with
               | Some a, Some d => Some (10 * a + d)
               | _, _ => None
               end) w (Some 0).

(** Neither neighbour of a token is alphanumeric: the word boundary as the
    glossary words it. *)
Definition is_alnum_opt (c : option char) : bool :=
  match c with Some x => is_alnum U x | None => false end.

(** Every position of [s] at which pattern [r] matches, in text order:
    [prev] is the character before [s] and [pos] the offset of [s]. *)
Fixpoint occurrences (r : regex) (ng : nat) (prev : option char) (pos : nat) (s : str)
    : list match_obj :=
  match exec U r prev s (repeat [] ng) with
  | o :: _ => [Match pos (pos + length (o_read o)) (o_read o) (o_groups o)]
  | [] => []
  end ++
  match s with
  | c :: s' => occurrences r ng (Some c) (S pos) s'
  | [] => []
  end.

(** Matches of [r] are never empty, and none starts inside another. *)
Definition apart (r : regex) (ng : nat) : Prop :=
  forall prev s o os, exec U r prev s (repeat [] ng) = o :: os ->
    o_read o <> [] /\
    forall u v, o_read o = u ++ v -> u <> [] -> v <> [] ->
      exec U r (last_char prev u) (v ++ o_rest o) (repeat [] ng) = [].

(** The secret codes of a text read from left to right: a code at the head
    is taken and reading goes on behind it, anything else is passed over
    one character at a time. *)
Inductive codes_left_to_right : str -> list str -> Prop :=
| codes_end : codes_left_to_right [] []
| codes_take w rest l :
    is_code_token w = true -> codes_left_to_right rest l ->
    codes_left_to_right (w ++ rest) (w :: l)
| codes_pass c s l :
    code_here (c :: s) = false -> codes_left_to_right s l ->
    codes_left_to_right (c :: s) l.
End Vocabulary.

(** The matches are listed by increasing start, and each is the piece of the
    text between its start and its end. *)
Definition in_text_order (text : str) (ms : list match_obj) : Prop :=
  StronglySorted (fun a b => (m_start a < m_start b)%nat) ms /\
  Forall (fun m => m_whole m = firstn (m_end m - m_start m) (skipn (m_start m) text)) ms.

(** The character of a digit value, and numbers written with two and with
    four digits, as ["{:02d}"] and ["{:04d}"] write those that fit. *)
Definition digit_char (n : N) : char := "0"%c + n.

Definition two_digits (n : N) : str :=
  [digit_char (n / 10); digit_char (n mod 10)].

Definition four_digits (n : N) : str :=
  [digit_char (n / 1000); digit_char (n / 100 mod 10);
   digit_char (n / 10 mod 10); digit_char (n mod 10)].

(** A month, a day and a year written MM/DD/YYYY. *)
Definition format_date (m d y : N) : str :=
  two_digits m ++ py "/" ++ two_digits d ++ py "/" ++ four_digits y.

(** [int] gives the number [n] for the text [w]. *)
Definition reads_as (U : unicode_db) (w : str) (n : N) : bool :=
  match int_of U w with
  | Some v => v =? n
  | None => false
  end.

(** A database that knows, outside ASCII, the Arabic-Indic digits U+0660 to
    U+0669 and nothing else. *)
Definition arabic_indic_digits : unicode_db.
Proof.
  refine (UnicodeDb (fun _ => false)
                    (fun c => if in_range 1632 1641 c then Some (c - 1632) else None)
                    (in_range 1632 1641) (in_range 1632 1641) _).
  intros c v. unfold in_range.
  destruct (1632 <=? c) eqn:E1; [|discriminate].
  destruct (c <=? 1641) eqn:E2; [|discriminate].
  simpl. intros [= <-]. apply N.leb_le in E1, E2. lia.
Defined.

Arguments is_char : simpl never.
Arguments in_range : simpl never.
Arguments is_decimal : simpl never.
Arguments at_boundary : simpl never.

(** * Properties *)

(** ** The matcher *)

Section ExecFacts.
Variable U : unicode_db.

Lemma exec_seq r1 r2 prev s g :
  exec U (r1 ;; r2) prev s g = flat_map (and_then prev (exec U r2)) (exec U r1 prev s g).
Proof. reflexivity. Qed.

Lemma exec_group n r prev s g :
  exec U (Group n r) prev s g =
  map (fun o => Outcome (o_read o) (o_rest o) (set_group n (o_read o) (o_groups o)))
      (exec U r prev s g).
Proof. reflexivity. Qed.

Lemma exec_lit c prev s g : exec U (Lit c) prev s g = step_char (is_char c) s g.
Proof. reflexivity. Qed.

Lemma exec_digit prev s g : exec U Digit prev s g = step_char (is_decimal U) s g.
Proof. reflexivity. Qed.

Lemma exec_wordb prev s g :
  exec U WordB prev s g =
  if at_boundary U prev (hd_error s) then [Outcome [] s g] else [].
Proof. reflexivity. Qed.

Lemma exec_repeat_0 r prev s g : exec U (Repeat 0 r) prev s g = [Outcome [] s g].
Proof. reflexivity. Qed.

Lemma exec_repeat_S n r prev s g :
  exec U (Repeat (S n) r) prev s g =
  flat_map (and_then prev (exec U (Repeat n r))) (exec U r prev s g).
Proof. reflexivity. Qed.

Lemma step_char_splits ok s g o :
  In o (step_char ok s g) -> s = o_read o ++ o_rest o.
Proof.
  destruct s as [|c s']; simpl; [tauto|].
  destruct (ok c); simpl; [|tauto].
  intros [<-|[]]; reflexivity.
Qed.

Lemma and_then_splits prev k o1 o s :
  s = o_read o1 ++ o_rest o1 ->
  (forall p g o', In o' (k p (o_rest o1) g) -> o_rest o1 = o_read o' ++ o_rest o') ->
  In o (and_then prev k o1) -> s = o_read o ++ o_rest o.
Proof.
  intros Hs Hk Hin. unfold and_then in Hin.
  apply in_map_iff in Hin as (o' & <- & Hin'). simpl.
  apply Hk in Hin'. rewrite <- app_assoc, <- Hin'. exact Hs.
Qed.

(** What an outcome has read and what it has left make up the text. *)
Lemma exec_splits r : forall prev s g o,
  In o (exec U r prev s g) -> s = o_read o ++ o_rest o.
Proof.
  induction r as [c|items| | |r1 IH1 r2 IH2|r1 IH1 r2 IH2|n r IH|n r IH];
    intros prev s g o Hin.
  - eapply step_char_splits; exact Hin.
  - eapply step_char_splits; exact Hin.
  - eapply step_char_splits; exact Hin.
  - rewrite exec_wordb in Hin.
    destruct (at_boundary U prev (hd_error s)); [|destruct Hin].
    destruct Hin as [<-|[]]; reflexivity.
  - rewrite exec_seq in Hin. apply in_flat_map in Hin as (o1 & H1 & H2).
    eapply and_then_splits; [eapply IH1; exact H1| |exact H2].
    intros p g' o'. apply IH2.
  - simpl in Hin. apply in_app_or in Hin as [H|H]; [eapply IH1|eapply IH2]; exact H.
  - rewrite exec_group in Hin. apply in_map_iff in Hin as (o' & <- & Hin). simpl.
    eapply IH; exact Hin.
  - revert prev s g o Hin. induction n as [|n IHn]; intros prev s g o Hin.
    + rewrite exec_repeat_0 in Hin. destruct Hin as [<-|[]]; reflexivity.
    + rewrite exec_repeat_S in Hin. apply in_flat_map in Hin as (o1 & H1 & H2).
      eapply and_then_splits; [eapply IH; exact H1| |exact H2].
      intros p g' o'. apply IHn.
Qed.

Lemma exec_head_splits r prev s g o os :
  exec U r prev s g = o :: os -> s = o_read o ++ o_rest o.
Proof.
  intros E. apply (exec_splits r prev s g). rewrite E. left. reflexivity.
Qed.

Lemma last_char_app prev u v :
  last_char prev (u ++ v) = last_char (last_char prev u) v.
Proof. apply fold_left_app. Qed.
End ExecFacts.

(** ** The scanning loop *)

Section Scan.
Variable U : unicode_db.
Variable r : regex.
Variable ng : nat.

(** The loop never needs more rounds than the text has positions. *)
Lemma scan_fuel : forall fuel1 fuel2 prev pos s,
  (length s < fuel1)%nat -> (length s < fuel2)%nat ->
  scan U r ng fuel1 prev pos s = scan U r ng fuel2 prev pos s.
Proof.
  induction fuel1 as [|f1 IH]; intros fuel2 prev pos s H1 H2; [lia|].
  destruct fuel2 as [|f2]; [lia|]. simpl.
  destruct (exec U r prev s (repeat [] ng)) as [|o os] eqn:E.
  - destruct s as [|c s']; [reflexivity|]. simpl in H1, H2. apply IH; lia.
  - f_equal.
    pose proof (exec_head_splits U _ _ _ _ _ _ E) as Hs.
    destruct (o_read o) as [|c w] eqn:Ew.
    + destruct s as [|c s']; [reflexivity|]. simpl in H1, H2. apply IH; lia.
    + assert (length (o_rest o) < length s)%nat.
      { rewrite Hs. rewrite length_app. simpl. lia. }
      apply IH; lia.
Qed.

Lemma occurrences_skip : forall w prev pos rest,
  (forall u v, w = u ++ v -> v <> [] ->
     exec U r (last_char prev u) (v ++ rest) (repeat [] ng) = []) ->
  occurrences U r ng prev pos (w ++ rest) =
  occurrences U r ng (last_char prev w) (pos + length w) rest.
Proof.
  induction w as [|c w IH]; intros prev pos rest H.
  - simpl. rewrite Nat.add_0_r. reflexivity.
  - change ((c :: w) ++ rest) with (c :: (w ++ rest)).
    cbn [occurrences].
    assert (E : exec U r prev (c :: w ++ rest) (repeat [] ng) = [])
      by (apply (H [] (c :: w)); [reflexivity|discriminate]).
    rewrite E. simpl app.
    rewrite IH.
    + simpl. f_equal. lia.
    + intros u v -> Hv. apply (H (c :: u) v); [reflexivity|exact Hv].
Qed.

Lemma occurrences_ge : forall s prev pos,
  Forall (fun m => (pos <= m_start m)%nat) (occurrences U r ng prev pos s).
Proof.
  induction s as [|c s IH]; intros prev pos; cbn [occurrences].
  - rewrite app_nil_r. destruct (exec U r prev [] (repeat [] ng)); constructor; simpl; auto.
  - apply Forall_app. split.
    + destruct (exec U r prev (c :: s) (repeat [] ng)); constructor; simpl; auto.
    + eapply Forall_impl; [|apply IH]. simpl. intros m Hm. lia.
Qed.

Lemma occurrences_sorted : forall s prev pos,
  StronglySorted (fun a b => (m_start a < m_start b)%nat) (occurrences U r ng prev pos s).
Proof.
  induction s as [|c s IH]; intros prev pos; cbn [occurrences].
  - rewrite app_nil_r.
    destruct (exec U r prev [] (repeat [] ng)); repeat constructor.
  - destruct (exec U r prev (c :: s) (repeat [] ng)); simpl; [apply IH|].
    constructor; [apply IH|].
    eapply Forall_impl; [|apply occurrences_ge]. simpl. intros m Hm. lia.
Qed.

(** The matches that start in a prefix of the text come first. *)
Lemma occurrences_app : forall pre prev pos post,
  exists before,
    occurrences U r ng prev pos (pre ++ post) =
    before ++ occurrences U r ng (last_char prev pre) (pos + length pre) post /\
    Forall (fun m => (m_start m < pos + length pre)%nat) before.
Proof.
  induction pre as [|c pre IH]; intros prev pos post.
  - exists []. simpl. rewrite Nat.add_0_r. split; [reflexivity|constructor].
  - destruct (IH (Some c) (S pos) post) as (before & E & Hb).
    change ((c :: pre) ++ post) with (c :: (pre ++ post)).
    cbn [occurrences]. rewrite E.
    eexists. rewrite app_assoc. split.
    + f_equal. simpl. f_equal. lia.
    + apply Forall_app. split.
      * destruct (exec U r prev (c :: pre ++ post) (repeat [] ng));
          constructor; simpl; [lia|constructor].
      * eapply Forall_impl; [|exact Hb]. simpl. intros m Hm. lia.
Qed.

(** The matches are the places where the pattern matches. *)
Lemma occurrences_in : forall s prev pos m,
  In m (occurrences U r ng prev pos s) <->
  exists pre post o os,
    s = pre ++ post /\
    exec U r (last_char prev pre) post (repeat [] ng) = o :: os /\
    m = Match (pos + length pre) (pos + length pre + length (o_read o))
              (o_read o) (o_groups o).
Proof.
  induction s as [|c s IH]; intros prev pos m; cbn [occurrences].
  - rewrite app_nil_r. split.
    + destruct (exec U r prev [] (repeat [] ng)) as [|o os] eqn:E; [intros []|].
      intros [<-|[]]. exists [], [], o, os. simpl. rewrite Nat.add_0_r. auto.
    + intros (pre & post & o & os & Hs & E & ->).
      symmetry in Hs. apply app_eq_nil in Hs as [-> ->]. simpl in E.
      rewrite E. simpl. rewrite Nat.add_0_r. auto.
  - rewrite in_app_iff, IH. split.
    + intros [H|(pre & post & o & os & -> & E & ->)].
      * destruct (exec U r prev (c :: s) (repeat [] ng)) as [|o os] eqn:E; [destruct H|].
        destruct H as [<-|[]]. exists [], (c :: s), o, os.
        simpl. rewrite Nat.add_0_r. auto.
      * exists (c :: pre), post, o, os. simpl. repeat split; [exact E|].
        f_equal; lia.
    + intros (pre & post & o & os & Hs & E & ->).
      destruct pre as [|c' pre].
      * left. simpl in Hs, E. subst post. rewrite E. simpl.
        rewrite Nat.add_0_r. auto.
      * right. simpl in Hs. injection Hs as <- ->.
        exists pre, post, o, os. simpl in E. repeat split; [exact E|].
        simpl. f_equal; lia.
Qed.

Hypothesis Hapart : apart U r ng.

(** With matches that keep apart, the loop finds every one of them. *)
Lemma scan_occurrences : forall fuel prev pos s,
  (length s < fuel)%nat ->
  scan U r ng fuel prev pos s = occurrences U r ng prev pos s.
Proof.
  induction fuel as [|f IH]; intros prev pos s Hf; [lia|].
  simpl. destruct s as [|c s'].
  - simpl. destruct (exec U r prev [] (repeat [] ng)) as [|o os] eqn:E; [reflexivity|].
    destruct (Hapart _ _ _ _ E) as [Hne _].
    pose proof (exec_head_splits U _ _ _ _ _ _ E) as Hs.
    destruct (o_read o); [congruence|discriminate].
  - cbn [occurrences].
    destruct (exec U r prev (c :: s') (repeat [] ng)) as [|o os] eqn:E.
    + simpl. apply IH. simpl in Hf. lia.
    + destruct (Hapart _ _ _ _ E) as [Hne Hin].
      pose proof (exec_head_splits U _ _ _ _ _ _ E) as Hs.
      destruct (o_read o) as [|c' w] eqn:Ew; [congruence|].
      simpl app. f_equal.
      simpl in Hs. injection Hs as <- Hs'. subst s'.
      rewrite IH.
      * rewrite occurrences_skip.
        -- f_equal. simpl. lia.
        -- intros u v -> Hv. apply (Hin (c :: u) v); [reflexivity|discriminate|exact Hv].
      * simpl in Hf. rewrite length_app in Hf. lia.
Qed.

Lemma finditer_occurrences text :
  finditer U r ng text = occurrences U r ng None 0 text.
Proof. apply scan_occurrences. lia. Qed.
End Scan.

(** ** Characters *)

Section CharFacts.
Variable U : unicode_db.

Lemma in_range_spec lo hi c : in_range lo hi c = true <-> lo <= c <= hi.
Proof. unfold in_range. rewrite andb_true_iff, !N.leb_le. tauto. Qed.

Lemma is_char_spec x c : is_char x c = true <-> c = x.
Proof. apply N.eqb_eq. Qed.

Lemma in_range_sub lo hi lo' hi' c :
  lo' <= lo -> hi <= hi' -> in_range lo hi c = true -> in_range lo' hi' c = true.
Proof. rewrite !in_range_spec. lia. Qed.

Lemma ascii_digit_value c : in_range "0" "9" c = true -> to_decimal U c = Some (c - "0"%c).
Proof.
  intros H. unfold to_decimal, ascii_isdigit. rewrite H.
  apply in_range_spec in H.
  destruct (c <? 128) eqn:E; [reflexivity|]. apply N.ltb_ge in E. lia.
Qed.

Lemma ascii_digit_decimal c : in_range "0" "9" c = true -> is_decimal U c = true.
Proof. intros H. unfold is_decimal. rewrite ascii_digit_value by exact H. reflexivity. Qed.

(** A decimal digit has a value below ten. *)
Lemma decimal_value c :
  is_decimal U c = true -> exists v, to_decimal U c = Some v /\ v < 10.
Proof.
  unfold is_decimal. destruct (to_decimal U c) as [v|] eqn:E; [intros _|discriminate].
  exists v. split; [reflexivity|].
  unfold to_decimal in E. destruct (c <? 128).
  - unfold ascii_isdigit in E. destruct (in_range "0" "9" c) eqn:R; [|discriminate].
    apply in_range_spec in R. injection E as <-. lia.
  - eapply ucd_todecimal_range. exact E.
Qed.

(** [\d] is part of [\w]. *)
Lemma decimal_word c : is_decimal U c = true -> is_word U c = true.
Proof.
  intros H. unfold is_word, is_alnum.
  destruct (c <? 128) eqn:E.
  - unfold is_decimal, to_decimal in H. rewrite E in H.
    destruct (ascii_isdigit c); [|discriminate].
    rewrite orb_true_r. reflexivity.
  - rewrite H. rewrite orb_true_r. reflexivity.
Qed.

Lemma digit_word c : in_range "0" "9" c = true -> is_word U c = true.
Proof. intros H. apply decimal_word, ascii_digit_decimal, H. Qed.

Lemma alnum_word c : is_alnum U c = true -> is_word U c = true.
Proof. intros H. unfold is_word. rewrite H. reflexivity. Qed.

Lemma slash_not_decimal c : is_char "/" c = true -> is_decimal U c = false.
Proof. intros H. apply is_char_spec in H. subst c. reflexivity. Qed.

Lemma is_month_digits a b :
  is_month a b = true -> in_range "0" "1" a = true /\ in_range "0" "9" b = true.
Proof.
  unfold is_month. rewrite orb_true_iff, !andb_true_iff, !is_char_spec, !in_range_spec. lia.
Qed.

Lemma is_day_digits a b :
  is_day a b = true -> in_range "0" "3" a = true /\ in_range "0" "9" b = true.
Proof.
  unfold is_day.
  rewrite !orb_true_iff, !andb_true_iff, !orb_true_iff, !is_char_spec, !in_range_spec. lia.
Qed.

Lemma is_year_digits a b c d :
  is_year U a b c d = true ->
  in_range "1" "2" a = true /\ is_decimal U b = true /\ is_decimal U c = true
  /\ is_decimal U d = true.
Proof.
  unfold is_year.
  rewrite !andb_true_iff, !orb_true_iff, !is_char_spec, !in_range_spec. intuition lia.
Qed.

Lemma boundary_before p c :
  is_word U c = true -> at_boundary U p (Some c) = negb (is_word_opt U p).
Proof.
  unfold at_boundary. simpl. intros ->. destruct (is_word_opt U p); reflexivity.
Qed.

Lemma boundary_after c n :
  is_word U c = true -> at_boundary U (Some c) n = negb (is_word_opt U n).
Proof. unfold at_boundary. simpl. intros ->. reflexivity. Qed.
End CharFacts.

(** ** The two patterns, read off directly *)

Section Patterns.
Variable U : unicode_db.

Ltac clash :=
  repeat match goal with
  | H : is_char _ _ = true |- _ => apply is_char_spec in H
  end; subst; try discriminate.

Ltac tests :=
  repeat (cbn;
    match goal with
    | |- context [is_char ?x ?c] => destruct (is_char x c) eqn:?
    | |- context [in_range ?l ?h ?c] => destruct (in_range l h c) eqn:?
    | |- context [is_decimal ?V ?c] => destruct (is_decimal V c) eqn:?
    end); cbn; try reflexivity; clash.

Lemma exec_month prev s g :
  exec U month_field prev s g =
  match s with
  | a :: b :: s' => if is_month a b then [Outcome [a; b] s' g] else []
  | _ => []
  end.
Proof. unfold is_month. destruct s as [|a [|b s']]; tests. Qed.

Lemma exec_day prev s g :
  exec U day_field prev s g =
  match s with
  | a :: b :: s' => if is_day a b then [Outcome [a; b] s' g] else []
  | _ => []
  end.
Proof. unfold is_day. destruct s as [|a [|b s']]; tests. Qed.

Lemma exec_year prev s g :
  exec U year_field prev s g =
  match s with
  | a :: b :: c :: d :: s' =>
      if is_year U a b c d then [Outcome [a; b; c; d] s' g] else []
  | _ => []
  end.
Proof. unfold is_year. destruct s as [|a [|b [|c [|d s']]]]; tests. Qed.

Ltac run :=
  repeat first
    [ rewrite exec_seq | rewrite exec_group | rewrite exec_lit | rewrite exec_wordb
    | rewrite exec_digit | rewrite exec_repeat_S | rewrite exec_repeat_0
    | rewrite exec_month | rewrite exec_day | rewrite exec_year
    | progress unfold and_then
    | progress cbn [flat_map map app step_char o_read o_rest o_groups
                    last_char fold_left set_group hd_error repeat firstn skipn
                    is_date_token is_code_token andb]
    | match goal with H : ?X = ?b |- context [?X] => rewrite H end
    | match goal with
      | |- context [at_boundary ?V ?x ?c] => destruct (at_boundary V x c) eqn:?
      | |- context [is_char ?x ?c] => destruct (is_char x c) eqn:?
      | |- context [is_month ?x ?c] => destruct (is_month x c) eqn:?
      | |- context [is_day ?x ?c] => destruct (is_day x c) eqn:?
      | |- context [is_year ?V ?a ?b ?c ?d] => destruct (is_year V a b c d) eqn:?
      | |- context [is_decimal ?V ?c] => destruct (is_decimal V c) eqn:?
      end ].

(** At a position the date pattern has one outcome, a date token between
    two word boundaries, or none. *)
Lemma exec_date prev s :
  exec U date_pattern prev s (repeat [] 3) =
  if date_here U prev s
  then [Outcome (firstn 10 s) (skipn 10 s) (date_fields (firstn 10 s))] else [].
Proof.
  unfold date_pattern, date_here, date_fields.
  destruct s as [|m1 [|m2 [|s1 [|d1 [|d2 [|s2 [|y1 [|y2 [|y3 [|y4 rest]]]]]]]]]];
    run; reflexivity.
Qed.

(** At a position the code pattern has one outcome, a secret code, or none. *)
Lemma exec_code prev s :
  exec U code_pattern prev s [] =
  if code_here U s then [Outcome (firstn 9 s) (skipn 9 s) []] else [].
Proof.
  unfold code_pattern, code_here.
  destruct s as [|a [|z [|m [|a' [|r [|h [|d1 [|d2 [|d3 rest]]]]]]]]];
    run; reflexivity.
Qed.
End Patterns.

(** ** Tokens *)

Section Tokens.
Variable U : unicode_db.

Lemma date_token_inv w :
  is_date_token U w = true ->
  exists m1 m2 s1 d1 d2 s2 y1 y2 y3 y4,
    w = [m1; m2; s1; d1; d2; s2; y1; y2; y3; y4] /\
    is_char "/" s1 = true /\ is_char "/" s2 = true /\
    is_month m1 m2 = true /\ is_day d1 d2 = true /\ is_year U y1 y2 y3 y4 = true.
Proof.
  destruct w as [|m1 [|m2 [|s1 [|d1 [|d2 [|s2 [|y1 [|y2 [|y3 [|y4 [|x w]]]]]]]]]]];
    try discriminate.
  unfold is_date_token. rewrite !andb_true_iff.
  intros [[[[Hm Hs1] Hd] Hs2] Hy].
  exists m1, m2, s1, d1, d2, s2, y1, y2, y3, y4. repeat split; assumption.
Qed.

Lemma date_token_length w : is_date_token U w = true -> length w = 10%nat.
Proof.
  intros H. apply date_token_inv in H
    as (m1 & m2 & s1 & d1 & d2 & s2 & y1 & y2 & y3 & y4 & -> & _). reflexivity.
Qed.

Lemma firstn_token n (w rest : str) : length w = n -> firstn n (w ++ rest) = w.
Proof.
  intros <-. rewrite firstn_app, Nat.sub_diag, firstn_all. simpl. apply app_nil_r.
Qed.

Lemma skipn_token n (w rest : str) : length w = n -> skipn n (w ++ rest) = rest.
Proof.
  intros <-. rewrite skipn_app, Nat.sub_diag, skipn_all. reflexivity.
Qed.


(** The first and the last character of a date token are word characters. *)
Lemma date_token_ends w :
  is_date_token U w = true ->
  exists a b, hd_error w = Some a /\ is_word U a = true /\
              (forall prev, last_char prev w = Some b) /\ is_word U b = true /\
              (forall rest, hd_error (w ++ rest) = Some a).
Proof.
  intros H. apply date_token_inv in H
    as (m1 & m2 & s1 & d1 & d2 & s2 & y1 & y2 & y3 & y4 & -> & _ & _ & Hm & _ & Hy).
  exists m1, y4. repeat split.
  - apply digit_word. apply is_month_digits in Hm as [Hm _].
    eapply in_range_sub; [| |exact Hm]; lia.
  - apply decimal_word. apply is_year_digits in Hy. tauto.
Qed.

(** A date stands at the head of [s] exactly when [s] begins with a date
    token and neither neighbour of the token is a word character. *)
Lemma date_here_iff prev s :
  date_here U prev s = true <->
  exists w rest, s = w ++ rest /\ is_date_token U w = true /\
    is_word_opt U prev = false /\ is_word_opt U (hd_error rest) = false.
Proof.
  split.
  - unfold date_here. rewrite !andb_true_iff. intros [[Hb Ht] He].
    pose proof (date_token_length _ Ht) as Hl.
    destruct (date_token_ends _ Ht) as (a & b & Ha & Wa & Hlast & Wb & _).
    exists (firstn 10 s), (skipn 10 s).
    split; [symmetry; apply firstn_skipn|]. split; [exact Ht|].
    rewrite Hlast in He. rewrite boundary_after in He by exact Wb.
    assert (Hh : hd_error s = Some a).
    { rewrite <- (firstn_skipn 10 s). destruct (firstn 10 s); [discriminate|exact Ha]. }
    rewrite Hh in Hb. rewrite boundary_before in Hb by exact Wa.
    split; [destruct (is_word_opt U prev)|destruct (is_word_opt U (hd_error (skipn 10 s)))];
      (reflexivity || discriminate).
  - intros (w & rest & -> & Ht & Hp & Hn).
    pose proof (date_token_length _ Ht) as Hl.
    destruct (date_token_ends _ Ht) as (a & b & Ha & Wa & Hlast & Wb & Hh).
    unfold date_here. rewrite (firstn_token 10), (skipn_token 10) by exact Hl.
    rewrite Ht, Hh, Hlast.
    rewrite boundary_before by exact Wa. rewrite boundary_after by exact Wb.
    rewrite Hp, Hn. reflexivity.
Qed.

Lemma code_token_inv w :
  is_code_token U w = true ->
  exists a z m a' r h d1 d2 d3,
    w = [a; z; m; a'; r; h; d1; d2; d3] /\
    is_char "A" a = true /\ is_char "Z" z = true /\ is_char "M" m = true /\
    is_char "A" a' = true /\ is_char "R" r = true /\ is_char "-" h = true /\
    is_decimal U d1 = true /\ is_decimal U d2 = true /\ is_decimal U d3 = true.
Proof.
  destruct w as [|a [|z [|m [|a' [|r [|h [|d1 [|d2 [|d3 [|x w]]]]]]]]]]; try discriminate.
  unfold is_code_token. rewrite !andb_true_iff.
  intros [[[[[[[[Ha Hz] Hm] Ha'] Hr] Hh] H1] H2] H3].
  exists a, z, m, a', r, h, d1, d2, d3. repeat split; assumption.
Qed.

Lemma code_token_length w : is_code_token U w = true -> length w = 9%nat.
Proof.
  intros H. apply code_token_inv in H
    as (a & z & m & a' & r & h & d1 & d2 & d3 & -> & _). reflexivity.
Qed.

(** A code stands at the head of [s] exactly when [s] begins with one. *)
Lemma code_here_iff s :
  code_here U s = true <-> exists w rest, s = w ++ rest /\ is_code_token U w = true.
Proof.
  unfold code_here. split.
  - intros H. exists (firstn 9 s), (skipn 9 s).
    split; [symmetry; apply firstn_skipn|exact H].
  - intros (w & rest & -> & H).
    rewrite (firstn_token 9) by (apply code_token_length; exact H). exact H.
Qed.

Lemma exec_date_head prev s o os :
  exec U date_pattern prev s (repeat [] 3) = o :: os ->
  date_here U prev s = true /\
  o = Outcome (firstn 10 s) (skipn 10 s) (date_fields (firstn 10 s)) /\ os = [].
Proof.
  intros E. rewrite exec_date in E.
  destruct (date_here U prev s); [|discriminate].
  split; [reflexivity|]. split; congruence.
Qed.

Lemma exec_code_head prev s o os :
  exec U code_pattern prev s [] = o :: os ->
  code_here U s = true /\ o = Outcome (firstn 9 s) (skipn 9 s) [] /\ os = [].
Proof.
  intros E. rewrite exec_code in E.
  destruct (code_here U s); [|discriminate].
  split; [reflexivity|]. split; congruence.
Qed.

(** ** Matches keep apart *)

Lemma date_apart : apart U date_pattern 3.
Proof.
  intros prev s o os E. apply exec_date_head in E as (Hd & -> & _).
  unfold o_read, o_rest.
  apply date_here_iff in Hd as (w & rest & -> & Ht & Hp & Hn).
  pose proof (date_token_length _ Ht) as Hl.
  rewrite (firstn_token 10), (skipn_token 10) by exact Hl.
  split; [intros ->; discriminate Ht|].
  intros u v Huv Hu Hv. rewrite exec_date.
  destruct (date_here U (last_char prev u) (v ++ rest)) eqn:Hd2; [exfalso|reflexivity].
  apply date_here_iff in Hd2 as (w' & rest' & Heq & Ht' & Hp' & _).
  apply date_token_inv in Ht
    as (m1 & m2 & s1 & d1 & d2 & s2 & y1 & y2 & y3 & y4 & -> & Hs1 & Hs2 & Hm & Hday & Hy).
  apply date_token_inv in Ht'
    as (n1 & n2 & t1 & e1 & e2 & t2 & z1 & z2 & z3 & z4 & -> & Ht1 & Ht2 & _).
  apply is_month_digits in Hm as [Hm1 Hm2].
  apply is_day_digits in Hday as [Hd1 Hd2].
  apply is_year_digits in Hy as (Hy1 & Hy2 & Hy3 & Hy4).
  assert (Wm1 : is_word U m1 = true)
    by (apply digit_word; eapply in_range_sub; [| |exact Hm1]; lia).
  assert (Wm2 : is_word U m2 = true) by (apply digit_word; exact Hm2).
  assert (Wd1 : is_word U d1 = true)
    by (apply digit_word; eapply in_range_sub; [| |exact Hd1]; lia).
  assert (Wd2 : is_word U d2 = true) by (apply digit_word; exact Hd2).
  assert (Wy1 : is_word U y1 = true)
    by (apply digit_word; eapply in_range_sub; [| |exact Hy1]; lia).
  assert (Wy2 : is_word U y2 = true) by (apply decimal_word; exact Hy2).
  assert (Wy3 : is_word U y3 = true) by (apply decimal_word; exact Hy3).
  destruct u as [|? u]; [contradiction Hu; reflexivity|].
  do 9 (cbn [app] in Huv; injection Huv as ? Huv; subst;
        destruct u as [|? u];
        [ cbn [app] in Huv; subst v;
          cbn [last_char fold_left is_word_opt] in Hp'; cbn [app] in Heq;
          first [ rewrite Wm1 in Hp' | rewrite Wm2 in Hp' | rewrite Wd1 in Hp'
                | rewrite Wd2 in Hp' | rewrite Wy1 in Hp' | rewrite Wy2 in Hp'
                | rewrite Wy3 in Hp'
                | injection Heq; intros; subst;
                  first [ rewrite (slash_not_decimal U _ Ht2) in Hy3
                        | rewrite (slash_not_decimal U _ Ht1) in Hy3 ] ];
          discriminate
        | ]).
  cbn [app] in Huv. injection Huv as ? Huv.
  symmetry in Huv. apply app_eq_nil in Huv as [_ ->]. contradiction Hv; reflexivity.
Qed.

Ltac char_clash :=
  match goal with
  | H1 : is_char ?a ?x = true, H2 : is_char ?b ?x = true |- _ =>
      apply is_char_spec in H1; apply is_char_spec in H2;
      rewrite H1 in H2; discriminate H2
  | H1 : is_char ?a ?x = true, H2 : is_decimal U ?x = true |- _ =>
      apply is_char_spec in H1; rewrite H1 in H2; discriminate H2
  end.

Lemma code_apart : apart U code_pattern 0.
Proof.
  intros prev s o os E. cbn [repeat] in *. apply exec_code_head in E as (Hc & -> & _).
  unfold o_read, o_rest.
  apply code_here_iff in Hc as (w & rest & -> & Ht).
  pose proof (code_token_length _ Ht) as Hl.
  rewrite (firstn_token 9), (skipn_token 9) by exact Hl.
  split; [intros ->; discriminate Ht|].
  intros u v Huv Hu Hv. rewrite exec_code.
  destruct (code_here U (v ++ rest)) eqn:Hc2; [exfalso|reflexivity].
  apply code_here_iff in Hc2 as (w' & rest' & Heq & Ht').
  apply code_token_inv in Ht
    as (a & z & m & a' & r & h & d1 & d2 & d3
        & -> & Ha & Hz & Hm & Ha' & Hr & Hh & H1 & H2 & H3).
  apply code_token_inv in Ht'
    as (b1 & b2 & b3 & b4 & b5 & b6 & e1 & e2 & e3 & -> & Hb1 & Hb2 & _).
  destruct u as [|? u]; [contradiction Hu; reflexivity|].
  do 8 (cbn [app] in Huv; injection Huv as ? Huv; subst;
        destruct u as [|? u];
        [ cbn [app] in Huv; subst v; cbn [app] in Heq;
          injection Heq; intros; subst; char_clash
        | ]).
  cbn [app] in Huv. injection Huv as ? Huv.
  symmetry in Huv. apply app_eq_nil in Huv as [_ ->]. contradiction Hv; reflexivity.
Qed.
End Tokens.

(** ** What the two extractors return *)

Section Extractors.
Variable U : unicode_db.


(** Joining the fields of a date token with "/" gives the token back. *)
Lemma join_date_fields w :
  is_date_token U w = true -> join (py "/") (date_fields w) = w.
Proof.
  intros H. apply date_token_inv in H
    as (m1 & m2 & s1 & d1 & d2 & s2 & y1 & y2 & y3 & y4 & -> & Hs1 & Hs2 & _).
  apply is_char_spec in Hs1, Hs2. subst s1 s2. reflexivity.
Qed.

(** The matches of the date pattern are the date tokens between word
    boundaries, each at its offset. *)
Lemma finditer_dates_in text m :
  In m (finditer U date_pattern 3 text) <->
  exists pre w post,
    text = pre ++ w ++ post /\ is_date_token U w = true /\
    is_word_opt U (last_char None pre) = false /\
    is_word_opt U (hd_error post) = false /\
    m = Match (length pre) (length pre + 10) w (date_fields w).
Proof.
  rewrite finditer_occurrences by apply date_apart.
  rewrite occurrences_in. split.
  - intros (pre & s & o & os & -> & E & ->).
    apply exec_date_head in E as (Hd & -> & _).
    apply date_here_iff in Hd as (w & post & -> & Ht & Hp & Hn).
    pose proof (date_token_length _ _ Ht) as Hl.
    exists pre, w, post. unfold o_read, o_groups.
    rewrite (firstn_token 10) by exact Hl. rewrite Hl. auto.
  - intros (pre & w & post & -> & Ht & Hp & Hn & ->).
    pose proof (date_token_length _ _ Ht) as Hl.
    assert (Hd : date_here U (last_char None pre) (w ++ post) = true)
      by (apply date_here_iff; exists w, post; auto).
    exists pre, (w ++ post). eexists. exists [].
    split; [reflexivity|]. rewrite exec_date, Hd. split; [reflexivity|].
    unfold o_read, o_groups. rewrite (firstn_token 10) by exact Hl. rewrite Hl.
    reflexivity.
Qed.

(** The matches of the code pattern are the secret codes, each at its
    offset. *)
Lemma finditer_codes_in text m :
  In m (finditer U code_pattern 0 text) <->
  exists pre w post,
    text = pre ++ w ++ post /\ is_code_token U w = true /\
    m = Match (length pre) (length pre + 9) w [].
Proof.
  rewrite finditer_occurrences by apply code_apart.
  rewrite occurrences_in. cbn [repeat]. split.
  - intros (pre & s & o & os & -> & E & ->).
    apply exec_code_head in E as (Hd & -> & _).
    apply code_here_iff in Hd as (w & post & -> & Ht).
    pose proof (code_token_length _ _ Ht) as Hl.
    exists pre, w, post. unfold o_read, o_groups.
    rewrite (firstn_token 9) by exact Hl. rewrite Hl. auto.
  - intros (pre & w & post & -> & Ht & ->).
    pose proof (code_token_length _ _ Ht) as Hl.
    assert (Hd : code_here U (w ++ post) = true)
      by (apply code_here_iff; exists w, post; auto).
    exists pre, (w ++ post). eexists. exists [].
    split; [reflexivity|]. rewrite exec_code, Hd. split; [reflexivity|].
    unfold o_read, o_groups. rewrite (firstn_token 9) by exact Hl. rewrite Hl.
    reflexivity.
Qed.

(** [extract_journal_dates] returns the matched texts. *)
Lemma extract_dates_whole text :
  extract_journal_dates U text = map m_whole (finditer U date_pattern 3 text).
Proof.
  unfold extract_journal_dates, findall_groups. rewrite map_map.
  apply map_ext_in. intros m Hm.
  apply finditer_dates_in in Hm as (pre & w & post & _ & Ht & _ & _ & ->).
  simpl. apply join_date_fields. exact Ht.
Qed.

Lemma extract_dates_in text d :
  In d (extract_journal_dates U text) <->
  exists pre post,
    text = pre ++ d ++ post /\ is_date_token U d = true /\
    is_word_opt U (last_char None pre) = false /\
    is_word_opt U (hd_error post) = false.
Proof.
  rewrite extract_dates_whole, in_map_iff. split.
  - intros (m & <- & Hm).
    apply finditer_dates_in in Hm as (pre & w & post & -> & Ht & Hp & Hn & ->).
    exists pre, post. auto.
  - intros (pre & post & -> & Ht & Hp & Hn).
    eexists. split; [|apply finditer_dates_in; exists pre, d, post; eauto].
    reflexivity.
Qed.

Lemma extract_codes_in text c :
  In c (extract_secret_codes U text) <->
  exists pre post, text = pre ++ c ++ post /\ is_code_token U c = true.
Proof.
  unfold extract_secret_codes, findall_whole. rewrite in_map_iff. split.
  - intros (m & <- & Hm).
    apply finditer_codes_in in Hm as (pre & w & post & -> & Ht & ->).
    exists pre, post. auto.
  - intros (pre & post & -> & Ht).
    eexists. split; [|apply finditer_codes_in; exists pre, c, post; eauto].
    reflexivity.
Qed.

(** Matches come by increasing start and are pieces of the text. *)
Lemma slice_app (pre w post : str) n :
  length w = n -> firstn (length pre + n - length pre) (skipn (length pre) (pre ++ w ++ post)) = w.
Proof.
  intros H. rewrite skipn_app, skipn_all, Nat.sub_diag. simpl.
  replace (length pre + n - length pre)%nat with n by lia.
  apply firstn_token. exact H.
Qed.

Lemma finditer_dates_order text :
  in_text_order text (finditer U date_pattern 3 text).
Proof.
  split.
  - rewrite finditer_occurrences by apply date_apart. apply occurrences_sorted.
  - apply Forall_forall. intros m Hm.
    apply finditer_dates_in in Hm as (pre & w & post & -> & Ht & _ & _ & ->).
    cbn [m_whole m_start m_end]. symmetry. apply slice_app.
    apply (date_token_length U). exact Ht.
Qed.

Lemma finditer_codes_order text :
  in_text_order text (finditer U code_pattern 0 text).
Proof.
  split.
  - rewrite finditer_occurrences by apply code_apart. apply occurrences_sorted.
  - apply Forall_forall. intros m Hm.
    apply finditer_codes_in in Hm as (pre & w & post & -> & Ht & ->).
    cbn [m_whole m_start m_end]. symmetry. apply slice_app.
    apply (code_token_length U). exact Ht.
Qed.
End Extractors.

(** ** Around a date *)

Section DatesApp.
Variable U : unicode_db.

Lemma occurrences_wholes r ng : forall s prev pos pos',
  map m_whole (occurrences U r ng prev pos s) =
  map m_whole (occurrences U r ng prev pos' s).
Proof.
  induction s as [|c s IH]; intros prev pos pos'; cbn [occurrences];
    rewrite !map_app.
  - destruct (exec U r prev [] (repeat [] ng)); reflexivity.
  - rewrite (IH (Some c) (S pos) (S pos')).
    destruct (exec U r prev (c :: s) (repeat [] ng)); reflexivity.
Qed.

(** No date starts where the next character is not a word character. *)
Lemma date_here_needs_word prev s :
  is_word_opt U (hd_error s) = false -> date_here U prev s = false.
Proof.
  intros H. destruct (date_here U prev s) eqn:E; [exfalso|reflexivity].
  apply date_here_iff in E as (w & rest & -> & Ht & _).
  destruct (date_token_ends U _ Ht) as (a & b & _ & Wa & _ & _ & Hh).
  rewrite Hh in H. simpl in H. congruence.
Qed.

(** A date behind a text that ends on a boundary does not change what is
    read at the head of that text. *)
Lemma date_here_shield prev x s rest :
  is_word_opt U (last_char prev (x :: s)) = false ->
  date_here U (last_char prev (x :: s)) rest = true ->
  date_here U prev ((x :: s) ++ rest) = date_here U prev (x :: s).
Proof.
  intros Hlast Hrest.
  destruct (Nat.lt_trichotomy (length (x :: s)) 10) as [Hlen|[Hlen|Hlen]].
  - (* shorter than a date *)
    assert (E2 : date_here U prev (x :: s) = false).
    { destruct (date_here U prev (x :: s)) eqn:E; [exfalso|reflexivity].
      apply date_here_iff in E as (w & r & E & Ht & _).
      apply (f_equal (@length _)) in E. rewrite length_app in E.
      rewrite (date_token_length U _ Ht) in E. lia. }
    rewrite E2.
    destruct (date_here U prev ((x :: s) ++ rest)) eqn:E; [exfalso|reflexivity].
    pose proof (exec_date U prev ((x :: s) ++ rest)) as Ex. rewrite E in Ex.
    destruct (date_apart U _ _ _ _ Ex) as [_ Hin]. unfold o_read, o_rest in Hin.
    specialize (Hin (x :: s) (firstn (10 - length (x :: s)) rest)).
    rewrite skipn_app, (skipn_all2 (x :: s)), app_nil_l, firstn_skipn in Hin by lia.
    rewrite exec_date, Hrest in Hin.
    assert (Hsplit : firstn 10 ((x :: s) ++ rest) =
                     (x :: s) ++ firstn (10 - length (x :: s)) rest)
      by (rewrite firstn_app, (firstn_all2 (x :: s)) by lia; reflexivity).
    assert (Hne : firstn (10 - length (x :: s)) rest <> []).
    { apply date_here_iff in Hrest as (w & r & -> & Ht & _).
      pose proof (date_token_length U _ Ht) as Hl.
      destruct w as [|w0 w]; [discriminate Hl|].
      destruct (10 - length (x :: s))%nat eqn:En; [lia|]. discriminate. }
    specialize (Hin Hsplit ltac:(discriminate) Hne). discriminate Hin.
  - (* as long as a date: it would end on a word character *)
    assert (E2 : is_date_token U (x :: s) = false).
    { destruct (is_date_token U (x :: s)) eqn:Ht; [exfalso|reflexivity].
      destruct (date_token_ends U _ Ht) as (a & b & _ & _ & Hl & Wb & _).
      rewrite Hl in Hlast. simpl in Hlast. congruence. }
    unfold date_here.
    rewrite (firstn_token 10 (x :: s) rest Hlen).
    rewrite (firstn_all2 (x :: s)) by lia.
    rewrite E2, !andb_false_r. reflexivity.
  - (* longer than a date: the same characters are looked at *)
    unfold date_here.
    rewrite firstn_app, skipn_app.
    replace (10 - length (x :: s))%nat with 0%nat by lia.
    rewrite firstn_0, skipn_O, app_nil_r.
    assert (Hh : hd_error (skipn 10 (x :: s) ++ rest) = hd_error (skipn 10 (x :: s))).
    { destruct (skipn 10 (x :: s)) eqn:Es; [|reflexivity].
      apply (f_equal (@length _)) in Es. rewrite length_skipn in Es.
      change (length (@nil char)) with 0%nat in Es. lia. }
    rewrite Hh. reflexivity.
Qed.

Lemma dates_before : forall pre prev pos pos' rest,
  is_word_opt U (last_char prev pre) = false ->
  date_here U (last_char prev pre) rest = true ->
  map m_whole (occurrences U date_pattern 3 prev pos (pre ++ rest)) =
  map m_whole (occurrences U date_pattern 3 prev pos' pre) ++
  map m_whole (occurrences U date_pattern 3 (last_char prev pre) pos rest).
Proof.
  induction pre as [|x s IH]; intros prev pos pos' rest Hlast Hrest.
  - cbn [occurrences app last_char fold_left]. rewrite exec_date.
    rewrite date_here_needs_word by reflexivity. reflexivity.
  - change ((x :: s) ++ rest) with (x :: (s ++ rest)).
    cbn [occurrences]. rewrite !map_app.
    rewrite (IH (Some x) (S pos) (S pos') rest Hlast Hrest).
    rewrite <- app_assoc. f_equal.
    + rewrite !exec_date.
      change (x :: s ++ rest) with ((x :: s) ++ rest).
      rewrite (date_here_shield prev x s rest Hlast Hrest).
      destruct (date_here U prev (x :: s)) eqn:E; [|reflexivity].
      cbn [map m_whole o_read]. 
      apply date_here_iff in E as (w & r & E & Ht & _).
      rewrite E, <- app_assoc.
      rewrite !(firstn_token 10) by (apply (date_token_length U); exact Ht).
      reflexivity.
    + f_equal. apply occurrences_wholes.
Qed.

Lemma dates_behind D post prev pos :
  is_date_token U D = true ->
  is_word_opt U prev = false ->
  is_word_opt U (hd_error post) = false ->
  map m_whole (occurrences U date_pattern 3 prev pos (D ++ post)) =
  D :: map m_whole (occurrences U date_pattern 3 None 0 post).
Proof.
  intros Ht Hp Hn.
  pose proof (date_token_length U _ Ht) as Hl.
  assert (Hd : date_here U prev (D ++ post) = true)
    by (apply date_here_iff; exists D, post; auto).
  pose proof (exec_date U prev (D ++ post)) as Ex.
  rewrite Hd, (firstn_token 10), (skipn_token 10) in Ex by exact Hl.
  destruct (date_apart U _ _ _ _ Ex) as [_ Hin]. unfold o_read, o_rest in Hin.
  destruct D as [|d0 D']; [discriminate Hl|].
  change ((d0 :: D') ++ post) with (d0 :: (D' ++ post)) in *.
  cbn [occurrences]. rewrite Ex. cbn [app map m_whole o_read]. f_equal.
  rewrite occurrences_skip.
  - destruct post as [|p post'].
    + cbn [occurrences]. rewrite !exec_date.
      rewrite !date_here_needs_word by reflexivity. reflexivity.
    + cbn [occurrences]. rewrite !exec_date, !map_app.
      rewrite !date_here_needs_word by exact Hn. cbn [map app].
      apply occurrences_wholes.
  - intros u v -> Hv. apply (Hin (d0 :: u) v); [reflexivity|discriminate|exact Hv].
Qed.

(** Around a date between word boundaries, the dates of a text are those
    before it, the date, and those behind it. *)
Lemma extract_dates_app pre D post :
  is_date_token U D = true ->
  is_word_opt U (last_char None pre) = false ->
  is_word_opt U (hd_error post) = false ->
  extract_journal_dates U (pre ++ D ++ post) =
  extract_journal_dates U pre ++ D :: extract_journal_dates U post.
Proof.
  intros Ht Hp Hn.
  assert (Hd : date_here U (last_char None pre) (D ++ post) = true)
    by (apply date_here_iff; exists D, post; auto).
  rewrite !extract_dates_whole, !finditer_occurrences by apply date_apart.
  rewrite (dates_before pre None 0 0 (D ++ post) Hp Hd)%nat. f_equal.
  apply dates_behind; assumption.
Qed.
End DatesApp.

(** ** Dates *)

Section DateClaims.
Variable U : unicode_db.

Lemma app_inv_length (A : Type) (a a' b b' : list A) :
  a ++ b = a' ++ b' -> length a = length a' -> a = a' /\ b = b'.
Proof.
  revert a'. induction a as [|x a IH]; intros [|x' a'] H Hl; try discriminate.
  - auto.
  - simpl in H. injection H as -> H. simpl in Hl.
    destruct (IH a' H) as [-> ->]; [lia|]. auto.
Qed.

Lemma int_of_two a b va vb :
  to_decimal U a = Some va -> to_decimal U b = Some vb ->
  int_of U [a; b] = Some (10 * va + vb).
Proof. intros Ha Hb. unfold int_of. cbn [fold_left]. rewrite Ha, Hb. f_equal; lia. Qed.

Lemma int_of_four a b c d va vb vc vd :
  to_decimal U a = Some va -> to_decimal U b = Some vb ->
  to_decimal U c = Some vc -> to_decimal U d = Some vd ->
  int_of U [a; b; c; d] = Some (1000 * va + 100 * vb + 10 * vc + vd).
Proof.
  intros Ha Hb Hc Hd. unfold int_of. cbn [fold_left].
  rewrite Ha, Hb, Hc, Hd. f_equal; lia.
Qed.

Lemma month_value a b :
  is_month a b = true -> exists v, int_of U [a; b] = Some v /\ 1 <= v <= 12.
Proof.
  intros H. pose proof (is_month_digits _ _ H) as [Ha Hb].
  assert (Ha' : in_range "0" "9" a = true) by (eapply in_range_sub; [| |exact Ha]; lia).
  eexists. split.
  - apply int_of_two; apply ascii_digit_value; assumption.
  - unfold is_month in H.
    rewrite orb_true_iff, !andb_true_iff, !is_char_spec, !in_range_spec in H. lia.
Qed.

Lemma day_value a b :
  is_day a b = true -> exists v, int_of U [a; b] = Some v /\ 1 <= v <= 31.
Proof.
  intros H. pose proof (is_day_digits _ _ H) as [Ha Hb].
  assert (Ha' : in_range "0" "9" a = true) by (eapply in_range_sub; [| |exact Ha]; lia).
  eexists. split.
  - apply int_of_two; apply ascii_digit_value; assumption.
  - unfold is_day in H.
    rewrite !orb_true_iff, !andb_true_iff, !orb_true_iff, !is_char_spec, !in_range_spec in H.
    lia.
Qed.

Lemma year_value a b c d :
  is_year U a b c d = true ->
  exists v, int_of U [a; b; c; d] = Some v /\ 1000 <= v <= 2999.
Proof.
  intros H. apply is_year_digits in H as (Ha & Hb & Hc & Hd).
  assert (Ha' : in_range "0" "9" a = true) by (eapply in_range_sub; [| |exact Ha]; lia).
  apply decimal_value in Hb as (vb & Eb & Lb).
  apply decimal_value in Hc as (vc & Ec & Lc).
  apply decimal_value in Hd as (vd & Ed & Ld).
  eexists. split.
  - apply int_of_four; [apply ascii_digit_value; exact Ha'|eassumption..].
  - apply in_range_spec in Ha. lia.
Qed.

(** The layout and the ranges of a date token. *)
Lemma date_token_fields d :
  is_date_token U d = true ->
  exists mm dd yyyy mv dv yv,
    d = mm ++ py "/" ++ dd ++ py "/" ++ yyyy /\
    date_fields d = [mm; dd; yyyy] /\
    length mm = 2%nat /\ length dd = 2%nat /\ length yyyy = 4%nat /\
    int_of U mm = Some mv /\ 1 <= mv <= 12 /\
    int_of U dd = Some dv /\ 1 <= dv <= 31 /\
    int_of U yyyy = Some yv /\ 1000 <= yv <= 2999.
Proof.
  intros H. apply date_token_inv in H
    as (m1 & m2 & s1 & d1 & d2 & s2 & y1 & y2 & y3 & y4 & -> & Hs1 & Hs2 & Hm & Hd & Hy).
  apply is_char_spec in Hs1, Hs2. subst s1 s2.
  destruct (month_value _ _ Hm) as (mv & Em & Lm).
  destruct (day_value _ _ Hd) as (dv & Ed & Ld).
  destruct (year_value _ _ _ _ Hy) as (yv & Ey & Ly).
  exists [m1; m2], [d1; d2], [y1; y2; y3; y4], mv, dv, yv.
  repeat split; try assumption; lia.
Qed.

(** C1, as amended: a valid date token whose neighbours in the text are
    not word characters (alphanumeric or underscore), or are missing at an
    end of the text, is returned unchanged, after the dates matched before
    it in the text and before those matched behind it. *)
Theorem C1_date_reported_in_order pre D post :
  is_date_token U D = true ->
  is_word_opt U (last_char None pre) = false ->
  is_word_opt U (hd_error post) = false ->
  (exists before after,
     finditer U date_pattern 3 (pre ++ D ++ post) =
       before ++ Match (length pre) (length pre + 10) D (date_fields D) :: after /\
     Forall (fun m => (m_start m < length pre)%nat) before /\
     Forall (fun m => (length pre < m_start m)%nat) after /\
     extract_journal_dates U (pre ++ D ++ post) =
       map m_whole before ++ D :: map m_whole after) /\
  extract_journal_dates U (pre ++ D ++ post) =
    extract_journal_dates U pre ++ D :: extract_journal_dates U post.
Proof.
  intros Ht Hp Hn. split; [|apply extract_dates_app; assumption].
  pose proof (date_token_length _ _ Ht) as Hl.
  assert (Hd : date_here U (last_char None pre) (D ++ post) = true)
    by (apply date_here_iff; exists D, post; auto).
  assert (E : exists before after,
    finditer U date_pattern 3 (pre ++ D ++ post) =
      before ++ Match (length pre) (length pre + 10) D (date_fields D) :: after /\
    Forall (fun m => (m_start m < length pre)%nat) before /\
    Forall (fun m => (length pre < m_start m)%nat) after).
  { rewrite finditer_occurrences by apply date_apart.
    destruct (occurrences_app U date_pattern 3 pre None 0 (D ++ post))
      as (before & E & Hb).
    rewrite E. clear E. simpl in Hb. exists before.
    pose proof (exec_date U (last_char None pre) (D ++ post)) as Ex.
    rewrite Hd, (firstn_token 10), (skipn_token 10) in Ex by exact Hl.
    destruct D as [|d0 D']; [discriminate Hl|].
    change ((d0 :: D') ++ post) with (d0 :: (D' ++ post)) in *.
    cbn [occurrences]. rewrite Ex. unfold o_read, o_groups. rewrite Hl.
    eexists. split; [reflexivity|]. split; [exact Hb|].
    eapply Forall_impl; [|apply occurrences_ge]. simpl. intros m Hm. lia. }
  destruct E as (before & after & E & Hb & Ha).
  exists before, after. repeat split; try assumption.
  rewrite extract_dates_whole, E, map_app. reflexivity.
Qed.

(** C2: every string returned has a month from 01 to 12, a day from 01 to
    31 and a year from 1000 to 2999, and a date token with a letter or a
    digit right before or right behind it is not matched where it
    stands. *)
Theorem C2_only_valid_dates :
  (forall text d, In d (extract_journal_dates U text) ->
     is_date_token U d = true /\
     exists mm dd yyyy mv dv yv,
       d = mm ++ py "/" ++ dd ++ py "/" ++ yyyy /\
       length mm = 2%nat /\ length dd = 2%nat /\ length yyyy = 4%nat /\
       int_of U mm = Some mv /\ 1 <= mv <= 12 /\
       int_of U dd = Some dv /\ 1 <= dv <= 31 /\
       int_of U yyyy = Some yv /\ 1000 <= yv <= 2999) /\
  (forall pre D post, is_date_token U D = true ->
     is_alnum_opt U (last_char None pre) = true \/
     is_alnum_opt U (hd_error post) = true ->
     forall m, In m (finditer U date_pattern 3 (pre ++ D ++ post)) ->
               m_start m <> length pre) /\
  extract_journal_dates U (py "101/02/2020") = [].
Proof.
  split; [|split].
  - intros text d Hd. apply extract_dates_in in Hd as (pre & post & _ & Ht & _).
    split; [exact Ht|].
    destruct (date_token_fields _ Ht)
      as (mm & dd & yyyy & mv & dv & yv & H1 & _ & H2).
    exists mm, dd, yyyy, mv, dv, yv. split; assumption.
  - intros pre D post Ht Hadj m Hm Hs.
    apply finditer_dates_in in Hm as (pre' & w & post' & E & Ht' & Hp & Hn & ->).
    cbn [m_start] in Hs.
    apply app_inv_length in E as [<- E]; [|symmetry; exact Hs].
    apply app_inv_length in E as [<- <-];
      [|rewrite (date_token_length _ _ Ht), (date_token_length _ _ Ht'); reflexivity].
    destruct Hadj as [H|H].
    + destruct (last_char None pre) as [c|]; [|discriminate H].
      simpl in H, Hp. rewrite (alnum_word _ _ H) in Hp. discriminate Hp.
    + destruct (hd_error post) as [c|]; [|discriminate H].
      simpl in H, Hn. rewrite (alnum_word _ _ H) in Hn. discriminate Hn.
  - vm_compute. reflexivity.
Qed.

(** C10: every string returned is a piece of the text of ten characters,
    laid out MM/DD/YYYY, and is the three groups of its match joined by
    "/". *)
Theorem C10_dates_are_spans_of_text text :
  (forall m, In m (finditer U date_pattern 3 text) ->
     join (py "/") (m_groups m) = m_whole m /\
     m_whole m = firstn 10 (skipn (m_start m) text) /\
     m_end m = (m_start m + 10)%nat /\ (m_end m <= length text)%nat) /\
  (forall d, In d (extract_journal_dates U text) ->
     (exists pre post, text = pre ++ d ++ post) /\
     length d = 10%nat /\
     nth_error d 2 = Some (chr "/") /\ nth_error d 5 = Some (chr "/") /\
     exists mm dd yyyy,
       length mm = 2%nat /\ length dd = 2%nat /\ length yyyy = 4%nat /\
       d = mm ++ py "/" ++ dd ++ py "/" ++ yyyy).
Proof.
  split.
  - intros m Hm.
    apply finditer_dates_in in Hm as (pre & w & post & -> & Ht & _ & _ & ->).
    pose proof (date_token_length _ _ Ht) as Hl.
    cbn [m_groups m_whole m_start m_end]. repeat split.
    + apply (join_date_fields U). exact Ht.
    + rewrite skipn_app, skipn_all, Nat.sub_diag. cbn [app skipn].
      symmetry. apply firstn_token. exact Hl.
    + rewrite !length_app. lia.
  - intros d Hd. apply extract_dates_in in Hd as (pre & post & -> & Ht & _).
    split; [exists pre, post; reflexivity|].
    split; [apply (date_token_length U); exact Ht|].
    destruct (date_token_fields _ Ht)
      as (mm & dd & yyyy & mv & dv & yv & -> & _ & Lm & Ld & Ly & _).
    destruct mm as [|m1 [|m2 [|? ?]]]; try discriminate Lm.
    destruct dd as [|d1 [|d2 [|? ?]]]; try discriminate Ld.
    repeat split.
    exists [m1; m2], [d1; d2], yyyy. auto.
Qed.
End DateClaims.

(** C1, the claim as stated: with the word boundary of the glossary, a
    position not flanked by an alphanumeric character, the date in
    "_01/02/2020" would have to be returned; an underscore is not
    alphanumeric, yet it is a word character, and nothing is returned. *)
Lemma C1_glossary_boundary_counterexample :
  (forall U, is_date_token U (py "01/02/2020") = true) /\
  (forall U, is_alnum_opt U (last_char None (py "_")) = false) /\
  (forall U, is_alnum_opt U (hd_error (py "")) = false) /\
  (forall U, extract_journal_dates U (py "_" ++ py "01/02/2020" ++ py "") = []).
Proof. repeat split; intros U; vm_compute; reflexivity. Qed.

(** A date in the middle of a journal line. *)
Lemma C1_date_reported_in_order_witness :
  exists before after,
    finditer ascii_only date_pattern 3 (py "Visited on " ++ py "03/15/2024" ++ py " and again") =
      before ++ Match 11 21 (py "03/15/2024") [py "03"; py "15"; py "2024"] :: after /\
    Forall (fun m => (m_start m < 11)%nat) before /\
    Forall (fun m => (11 < m_start m)%nat) after /\
    extract_journal_dates ascii_only (py "Visited on " ++ py "03/15/2024" ++ py " and again") =
      map m_whole before ++ py "03/15/2024" :: map m_whole after.
Proof.
  apply (C1_date_reported_in_order ascii_only (py "Visited on ") (py "03/15/2024")
           (py " and again")); reflexivity.
Defined.

(** The date of a short line, as a piece of that line. *)
Lemma C10_dates_are_spans_of_text_witness :
  (exists pre post, py "on 03/15/2024." = pre ++ py "03/15/2024" ++ post) /\
  length (py "03/15/2024") = 10%nat /\
  nth_error (py "03/15/2024") 2 = Some (chr "/") /\
  nth_error (py "03/15/2024") 5 = Some (chr "/") /\
  exists mm dd yyyy,
    length mm = 2%nat /\ length dd = 2%nat /\ length yyyy = 4%nat /\
    py "03/15/2024" = mm ++ py "/" ++ dd ++ py "/" ++ yyyy.
Proof.
  apply (proj2 (C10_dates_are_spans_of_text ascii_only (py "on 03/15/2024."))).
  vm_compute. left. reflexivity.
Defined.

(** ** Secret codes *)

Section CodeClaims.
Variable U : unicode_db.

Lemma code_token_text w :
  is_code_token U w = true <->
  exists d1 d2 d3,
    w = py "AZMAR-" ++ [d1; d2; d3] /\
    is_decimal U d1 = true /\ is_decimal U d2 = true /\ is_decimal U d3 = true.
Proof.
  split.
  - intros H. apply code_token_inv in H
      as (a & z & m & a' & r & h & d1 & d2 & d3
          & -> & Ha & Hz & Hm & Ha' & Hr & Hh & H1 & H2 & H3).
    apply is_char_spec in Ha, Hz, Hm, Ha', Hr, Hh. subst.
    exists d1, d2, d3. auto.
  - intros (d1 & d2 & d3 & -> & H1 & H2 & H3).
    change (py "AZMAR-" ++ [d1; d2; d3]) with [65; 90; 77; 65; 82; 45; d1; d2; d3].
    unfold is_code_token. rewrite H1, H2, H3. reflexivity.
Qed.

Lemma scan_code_step fuel prev pos s :
  scan U code_pattern 0 (S fuel) prev pos s =
  if code_here U s
  then Match pos (pos + length (firstn 9 s)) (firstn 9 s) [] ::
       match firstn 9 s with
       | _ :: _ =>
           scan U code_pattern 0 fuel (last_char prev (firstn 9 s))
                (pos + length (firstn 9 s)) (skipn 9 s)
       | [] =>
           match s with
           | c :: s' => scan U code_pattern 0 fuel (Some c) (S pos) s'
           | [] => []
           end
       end
  else match s with
       | c :: s' => scan U code_pattern 0 fuel (Some c) (S pos) s'
       | [] => []
       end.
Proof.
  cbn [scan repeat]. rewrite exec_code. destruct (code_here U s); reflexivity.
Qed.

Lemma codes_scan_sound : forall fuel prev pos s,
  (length s < fuel)%nat ->
  codes_left_to_right U s (map m_whole (scan U code_pattern 0 fuel prev pos s)).
Proof.
  induction fuel as [|f IH]; intros prev pos s Hf; [lia|].
  rewrite scan_code_step. destruct (code_here U s) eqn:Hc.
  - apply code_here_iff in Hc as (w & rest & -> & Ht).
    pose proof (code_token_length _ _ Ht) as Hl.
    rewrite (firstn_token 9), (skipn_token 9) by exact Hl.
    destruct w as [|c w']; [discriminate Hl|].
    cbn [map m_whole]. apply codes_take; [exact Ht|].
    apply IH. rewrite length_app in Hf. simpl in Hf. lia.
  - destruct s as [|c s']; [constructor|].
    apply codes_pass; [exact Hc|]. apply IH. simpl in Hf. lia.
Qed.

Lemma codes_scan_complete s l :
  codes_left_to_right U s l ->
  forall fuel prev pos, (length s < fuel)%nat ->
    l = map m_whole (scan U code_pattern 0 fuel prev pos s).
Proof.
  induction 1 as [|w rest l Ht _ IH|c s l Hc _ IH]; intros fuel prev pos Hf;
    (destruct fuel as [|f]; [lia|]); rewrite scan_code_step.
  - reflexivity.
  - pose proof (code_token_length _ _ Ht) as Hl.
    assert (Hc : code_here U (w ++ rest) = true)
      by (apply code_here_iff; exists w, rest; auto).
    rewrite Hc, (firstn_token 9), (skipn_token 9) by exact Hl.
    destruct w as [|c w']; [discriminate Hl|].
    cbn [map m_whole]. f_equal. apply IH.
    rewrite length_app in Hf. simpl in Hf. lia.
  - rewrite Hc. apply IH. simpl in Hf. lia.
Qed.

Lemma codes_left_to_right_extract text :
  codes_left_to_right U text (extract_secret_codes U text).
Proof. apply codes_scan_sound. lia. Qed.

Lemma codes_left_to_right_unique text l :
  codes_left_to_right U text l -> l = extract_secret_codes U text.
Proof. intros H. apply (codes_scan_complete _ _ H). lia. Qed.

(** A code further on keeps a shorter text from being read as one. *)
Lemma code_here_shield x s c post :
  is_code_token U c = true ->
  code_here U (x :: s) = false -> code_here U ((x :: s) ++ c ++ post) = false.
Proof.
  intros Ht Hx.
  pose proof (code_token_length _ _ Ht) as Hl.
  destruct (code_here U ((x :: s) ++ c ++ post)) eqn:E; [exfalso|reflexivity].
  destruct (Nat.le_gt_cases 9 (length (x :: s))) as [Hlen|Hlen].
  - unfold code_here in E, Hx. rewrite firstn_app in E.
    replace (9 - length (x :: s))%nat with 0%nat in E by lia.
    rewrite firstn_0, app_nil_r in E. congruence.
  - pose proof (exec_code U None ((x :: s) ++ c ++ post)) as Ex. rewrite E in Ex.
    destruct (code_apart U _ _ _ _ Ex) as [_ Hin]. unfold o_read, o_rest in Hin.
    specialize (Hin (x :: s) (firstn (9 - length (x :: s)) (c ++ post))).
    rewrite skipn_app, (skipn_all2 (x :: s)), app_nil_l, firstn_skipn in Hin by lia.
    rewrite exec_code in Hin.
    assert (Hc : code_here U (c ++ post) = true)
      by (apply code_here_iff; exists c, post; auto).
    rewrite Hc in Hin.
    assert (Hne : firstn (9 - length (x :: s)) (c ++ post) <> []).
    { destruct c as [|c0 c']; [discriminate Hl|].
      destruct (9 - length (x :: s))%nat eqn:En; [lia|]. discriminate. }
    assert (Hsplit : firstn 9 ((x :: s) ++ c ++ post) =
                     (x :: s) ++ firstn (9 - length (x :: s)) (c ++ post))
      by (rewrite firstn_app, (firstn_all2 (x :: s)) by lia; reflexivity).
    specialize (Hin Hsplit ltac:(discriminate) Hne). discriminate Hin.
Qed.

Lemma codes_left_to_right_app pre c post l1 l2 :
  is_code_token U c = true ->
  codes_left_to_right U pre l1 -> codes_left_to_right U post l2 ->
  codes_left_to_right U (pre ++ c ++ post) (l1 ++ c :: l2).
Proof.
  intros Ht H1 H2. induction H1 as [|w rest l Hw _ IH|x s l Hx _ IH].
  - simpl. apply codes_take; assumption.
  - rewrite <- app_assoc. apply (codes_take U w); assumption.
  - change ((x :: s) ++ c ++ post) with (x :: (s ++ c ++ post)).
    apply codes_pass; [|exact IH].
    apply (code_here_shield x s c post); assumption.
Qed.

(** Around a code, the codes of a text are those before it, the code, and
    those behind it. *)
Lemma extract_codes_app pre c post :
  is_code_token U c = true ->
  extract_secret_codes U (pre ++ c ++ post) =
  extract_secret_codes U pre ++ c :: extract_secret_codes U post.
Proof.
  intros Ht. symmetry. apply codes_left_to_right_unique.
  apply codes_left_to_right_app; [exact Ht| |]; apply codes_left_to_right_extract.
Qed.

(** C3: the secret codes returned are the occurrences of "AZMAR-" and
    three decimal digits met reading the text from left to right, each
    taken whole and reading resumed right behind it, whatever stands
    before or after. *)
Theorem C3_codes_left_to_right :
  (forall text, codes_left_to_right U text (extract_secret_codes U text)) /\
  (forall text l, codes_left_to_right U text l -> l = extract_secret_codes U text) /\
  (forall w, is_code_token U w = true <->
     exists d1 d2 d3,
       w = py "AZMAR-" ++ [d1; d2; d3] /\
       is_decimal U d1 = true /\ is_decimal U d2 = true /\ is_decimal U d3 = true) /\
  extract_secret_codes U (py "AZMAR-007") = [py "AZMAR-007"] /\
  extract_secret_codes U (py "AZMAR-07") = [] /\
  extract_secret_codes U (py "AZMAR-0071") = [py "AZMAR-007"].
Proof.
  split; [exact codes_left_to_right_extract|].
  split; [exact codes_left_to_right_unique|].
  split; [exact code_token_text|].
  repeat split; vm_compute; reflexivity.
Qed.

(** C4: the journal line of the specification. *)
Theorem C4_journal_line :
  extract_journal_dates U
    (py "Visited on 03/15/2024 and again 13/40/2024, see AZMAR-042 and AZMAR-99.")
  = [py "03/15/2024"] /\
  extract_secret_codes U
    (py "Visited on 03/15/2024 and again 13/40/2024, see AZMAR-042 and AZMAR-99.")
  = [py "AZMAR-042"].
Proof. split; vm_compute; reflexivity. Qed.

(** C9: a secret code begins with the capital letters "AZMAR-" and nothing
    else; a text without them has no code. *)
Theorem C9_codes_case_sensitive :
  (forall text c, In c (extract_secret_codes U text) -> firstn 6 c = py "AZMAR-") /\
  (forall text, (forall pre post, text <> pre ++ py "AZMAR-" ++ post) ->
                extract_secret_codes U text = []) /\
  extract_secret_codes U (py "azmar-123") = [] /\
  extract_secret_codes U (py "Azmar-123") = [].
Proof.
  split; [|split].
  - intros text c Hc. apply extract_codes_in in Hc as (pre & post & _ & Ht).
    apply code_token_text in Ht as (d1 & d2 & d3 & -> & _). reflexivity.
  - intros text Hno.
    destruct (extract_secret_codes U text) as [|c l] eqn:E; [reflexivity|exfalso].
    assert (Hc : In c (extract_secret_codes U text)) by (rewrite E; left; reflexivity).
    apply extract_codes_in in Hc as (pre & post & -> & Ht).
    apply code_token_text in Ht as (d1 & d2 & d3 & -> & _).
    apply (Hno pre ([d1; d2; d3] ++ post)). rewrite <- app_assoc. reflexivity.
  - split; vm_compute; reflexivity.
Qed.
End CodeClaims.

(** ** Both extractors *)

Section BothClaims.
Variable U : unicode_db.

(** C5: both results follow the text: the matches come by increasing
    start, every occurrence has its own match at its own offset, so a
    token that occurs twice is returned twice. *)
Theorem C5_text_order_duplicates_kept :
  (forall text,
     in_text_order text (finditer U date_pattern 3 text) /\
     extract_journal_dates U text = map m_whole (finditer U date_pattern 3 text) /\
     forall pre D post, text = pre ++ D ++ post -> is_date_token U D = true ->
       is_word_opt U (last_char None pre) = false ->
       is_word_opt U (hd_error post) = false ->
       In (Match (length pre) (length pre + 10) D (date_fields D))
          (finditer U date_pattern 3 text)) /\
  (forall text,
     in_text_order text (finditer U code_pattern 0 text) /\
     extract_secret_codes U text = map m_whole (finditer U code_pattern 0 text) /\
     forall pre c post, text = pre ++ c ++ post -> is_code_token U c = true ->
       In (Match (length pre) (length pre + 9) c []) (finditer U code_pattern 0 text)) /\
  (forall pre D mid post, is_date_token U D = true ->
     is_word_opt U (last_char None pre) = false ->
     is_word_opt U (hd_error (mid ++ D ++ post)) = false ->
     is_word_opt U (last_char None mid) = false ->
     is_word_opt U (hd_error post) = false ->
     extract_journal_dates U (pre ++ D ++ mid ++ D ++ post) =
     extract_journal_dates U pre ++ D :: extract_journal_dates U mid
       ++ D :: extract_journal_dates U post) /\
  (forall pre c mid post, is_code_token U c = true ->
     extract_secret_codes U (pre ++ c ++ mid ++ c ++ post) =
     extract_secret_codes U pre ++ c :: extract_secret_codes U mid
       ++ c :: extract_secret_codes U post) /\
  extract_secret_codes U (py "AZMAR-001 ... AZMAR-001") = [py "AZMAR-001"; py "AZMAR-001"].
Proof.
  split; [|split; [|split; [|split]]].
  - intros text. split; [apply finditer_dates_order|].
    split; [apply extract_dates_whole|].
    intros pre D post -> Ht Hp Hn. apply finditer_dates_in.
    exists pre, D, post. auto.
  - intros text. split; [apply finditer_codes_order|].
    split; [reflexivity|].
    intros pre c post -> Ht. apply finditer_codes_in.
    exists pre, c, post. auto.
  - intros pre D mid post Ht Hp Hm Hl Hn.
    rewrite extract_dates_app by assumption.
    rewrite extract_dates_app by assumption. reflexivity.
  - intros pre c mid post Ht.
    rewrite extract_codes_app by exact Ht.
    rewrite extract_codes_app by exact Ht. reflexivity.
  - vm_compute. reflexivity.
Qed.

(** C6: both extractors return a list for every text, the loop never
    running out of rounds, and the empty list for a text in which the
    pattern does not occur. *)
Theorem C6_total_and_empty_without_matches text :
  (forall fuel, (length text < fuel)%nat ->
     scan U date_pattern 3 fuel None 0 text = finditer U date_pattern 3 text /\
     scan U code_pattern 0 fuel None 0 text = finditer U code_pattern 0 text) /\
  ((forall pre D post, text = pre ++ D ++ post -> is_date_token U D = true ->
      is_word_opt U (last_char None pre) = false ->
      is_word_opt U (hd_error post) = false -> False) ->
   extract_journal_dates U text = []) /\
  ((forall pre c post, text = pre ++ c ++ post -> is_code_token U c = false) ->
   extract_secret_codes U text = []) /\
  extract_journal_dates U [] = [] /\ extract_secret_codes U [] = [].
Proof.
  split; [|split; [|split; [|split]]].
  - intros fuel Hf. split; apply scan_fuel; [exact Hf|lia|exact Hf|lia].
  - intros Hno.
    destruct (extract_journal_dates U text) as [|d l] eqn:E; [reflexivity|exfalso].
    assert (Hd : In d (extract_journal_dates U text)) by (rewrite E; left; reflexivity).
    apply extract_dates_in in Hd as (pre & post & Hs & Ht & Hp & Hn).
    exact (Hno pre d post Hs Ht Hp Hn).
  - intros Hno.
    destruct (extract_secret_codes U text) as [|c l] eqn:E; [reflexivity|exfalso].
    assert (Hc : In c (extract_secret_codes U text)) by (rewrite E; left; reflexivity).
    apply extract_codes_in in Hc as (pre & post & Hs & Ht).
    rewrite (Hno pre c post Hs) in Ht. discriminate Ht.
  - vm_compute. reflexivity.
  - vm_compute. reflexivity.
Qed.

End BothClaims.

(** A line with neither a date nor a code. *)
Lemma C6_total_and_empty_without_matches_witness :
  extract_journal_dates ascii_only (py "no dates, no codes") = [] /\
  extract_secret_codes ascii_only (py "no dates, no codes") = [].
Proof.
  destruct (C6_total_and_empty_without_matches ascii_only (py "no dates, no codes"))
    as (_ & Hd & Hc & _).
  split.
  - apply Hd. intros pre D post Hs Ht Hp Hn.
    assert (H : In D (extract_journal_dates ascii_only (py "no dates, no codes")))
      by (apply (proj2 (extract_dates_in _ _ _)); exists pre, post; auto).
    vm_compute in H. exact H.
  - apply Hc. intros pre c post Hs.
    destruct (is_code_token ascii_only c) eqn:Ht; [exfalso|reflexivity].
    assert (H : In c (extract_secret_codes ascii_only (py "no dates, no codes")))
      by (apply (proj2 (extract_codes_in _ _ _)); exists pre, post; auto).
    vm_compute in H. exact H.
Defined.

(** A date with a letter right before it. *)
Lemma C2_only_valid_dates_witness :
  Forall (fun m => m_start m <> 1%nat)
         (finditer ascii_only date_pattern 3 (py "x" ++ py "01/02/2020" ++ py "")).
Proof.
  destruct (C2_only_valid_dates ascii_only) as (_ & H & _).
  apply Forall_forall.
  apply (H (py "x") (py "01/02/2020") (py "")); [reflexivity|left; reflexivity].
Defined.

(** Reading "AZMAR-0071" from left to right. *)
Lemma C3_codes_left_to_right_witness :
  [py "AZMAR-007"] = extract_secret_codes ascii_only (py "AZMAR-0071").
Proof.
  apply (proj1 (proj2 (C3_codes_left_to_right ascii_only))).
  apply (codes_take ascii_only (py "AZMAR-007") (py "1") []); [reflexivity|].
  apply codes_pass; [reflexivity|]. apply codes_end.
Defined.

(** The same date twice in a line. *)
Lemma C5_text_order_duplicates_kept_witness :
  extract_journal_dates ascii_only
    (py "on " ++ py "03/15/2024" ++ py " and on " ++ py "03/15/2024" ++ py ".") =
  extract_journal_dates ascii_only (py "on ") ++ py "03/15/2024"
    :: extract_journal_dates ascii_only (py " and on ") ++ py "03/15/2024"
    :: extract_journal_dates ascii_only (py ".").
Proof.
  apply (proj1 (proj2 (proj2 (C5_text_order_duplicates_kept ascii_only))));
    reflexivity.
Defined.

(** A line with the code in small letters only. *)
Lemma C9_codes_case_sensitive_witness :
  extract_secret_codes ascii_only (py "azmar-123 and Azmar-123") = [].
Proof.
  destruct (C9_codes_case_sensitive ascii_only) as (_ & H & _).
  apply H. intros pre post E.
  assert (Hi : In (chr "Z") (py "azmar-123 and Azmar-123")).
  { rewrite E. apply in_or_app. right. right. left. reflexivity. }
  vm_compute in Hi.
  repeat (destruct Hi as [Hi|Hi]; [discriminate Hi|]). exact Hi.
Defined.

(** * Further properties of the extractors *)

(** ** Matches do not overlap *)

Section Spacing.
Variable U : unicode_db.

Lemma scan_from r ng : forall fuel prev pos s,
  Forall (fun m => (pos <= m_start m)%nat) (scan U r ng fuel prev pos s).
Proof.
  induction fuel as [|f IH]; intros prev pos s; [constructor|].
  cbn [scan]. destruct (exec U r prev s (repeat [] ng)) as [|o os].
  - destruct s as [|c s']; [constructor|].
    eapply Forall_impl; [|apply IH]. simpl. intros m Hm. lia.
  - constructor; [simpl; lia|].
    destruct (o_read o) as [|c w].
    + destruct s as [|c s']; [constructor|].
      eapply Forall_impl; [|apply IH]. simpl. intros m Hm. lia.
    + eapply Forall_impl; [|apply IH]. simpl. intros m Hm. lia.
Qed.

(** Whatever the pattern, a match ends before the next one starts. *)
Lemma scan_spaced r ng : forall fuel prev pos s,
  StronglySorted (fun a b => (m_end a <= m_start b)%nat) (scan U r ng fuel prev pos s).
Proof.
  induction fuel as [|f IH]; intros prev pos s; [constructor|].
  cbn [scan]. destruct (exec U r prev s (repeat [] ng)) as [|o os].
  - destruct s as [|c s']; [constructor|]. apply IH.
  - destruct (o_read o) as [|c w] eqn:Ew.
    + destruct s as [|c s']; [repeat constructor|].
      constructor; [apply IH|].
      eapply Forall_impl; [|apply scan_from]. simpl. intros m Hm. lia.
    + constructor; [apply IH|].
      eapply Forall_impl; [|apply scan_from]. simpl. intros m Hm. lia.
Qed.

Lemma StronglySorted_refine (A : Type) (R R' : A -> A -> Prop) l :
  (forall a b, In a l -> In b l -> R a b -> R' a b) ->
  StronglySorted R l -> StronglySorted R' l.
Proof.
  intros H S. induction S as [|a l S IH F]; [constructor|].
  constructor.
  - apply IH. intros x y Hx Hy. apply H; right; assumption.
  - rewrite Forall_forall in F |- *. intros b Hb.
    apply H; [left; reflexivity|right; exact Hb|apply F; exact Hb].
Qed.

(** Two dates are never matched back to back: a character lies between. *)
Lemma finditer_dates_gap text :
  StronglySorted (fun a b => (m_end a < m_start b)%nat) (finditer U date_pattern 3 text).
Proof.
  apply (StronglySorted_refine _ (fun a b => (m_end a <= m_start b)%nat));
    [|apply scan_spaced].
  intros a b Ha Hb Hab.
  apply finditer_dates_in in Ha as (pre & w & post & E & Ht & _ & Hn & ->).
  apply finditer_dates_in in Hb as (pre' & w' & post' & E' & Ht' & _ & _ & ->).
  cbn [m_start m_end] in *.
  destruct (Nat.eq_dec (length pre + 10) (length pre')) as [Heq|Hne]; [exfalso|lia].
  rewrite E in E'. rewrite (app_assoc pre w post) in E'.
  apply app_inv_length in E' as [_ E'];
    [|rewrite length_app, (date_token_length U _ Ht); exact Heq].
  subst post.
  destruct (date_token_ends U _ Ht') as (x & y & _ & Wx & _ & _ & Hh).
  rewrite Hh in Hn. simpl in Hn. congruence.
Qed.

Lemma spaced_count (L gap : nat) : forall (l : list match_obj) (p : nat),
  StronglySorted (fun a b => (m_end a + gap <= m_start b)%nat) l ->
  Forall (fun m => (p <= m_start m)%nat) l ->
  Forall (fun m => (m_end m <= L)%nat) l ->
  forall k, Forall (fun m => (m_end m = m_start m + k)%nat) l ->
  l = [] \/ ((k + gap) * length l + p <= L + gap)%nat.
Proof.
  induction l as [|m l IH]; intros p S Hp HL k Hk; [left; reflexivity|right].
  apply StronglySorted_inv in S as [S F].
  apply Forall_cons_iff in Hp as [Hp0 _].
  apply Forall_cons_iff in HL as [HL0 HL].
  apply Forall_cons_iff in Hk as [Hk0 Hk].
  destruct (IH (m_end m + gap)%nat S F HL k Hk) as [->|Hb].
  - simpl. lia.
  - simpl length. lia.
Qed.
End Spacing.

Section SpacingTheorems.
Variable U : unicode_db.

(** X1: between two dates returned there is at least one character of the text
    that belongs to neither; two secret codes may touch but never share a
    character. *)
Theorem matches_keep_apart text :
  StronglySorted (fun a b => (m_end a < m_start b)%nat)
                 (finditer U date_pattern 3 text) /\
  StronglySorted (fun a b => (m_end a <= m_start b)%nat)
                 (finditer U code_pattern 0 text).
Proof.
  split; [apply finditer_dates_gap|apply scan_spaced].
Qed.

(** X2: a text of n characters holds at most (n + 1) / 11 dates and n / 9
    secret codes. *)
Theorem results_bounded_by_text text :
  (11 * length (extract_journal_dates U text) <= length text + 1)%nat /\
  (9 * length (extract_secret_codes U text) <= length text)%nat.
Proof.
  split.
  - rewrite extract_dates_whole, length_map.
    destruct (spaced_count (length text) 1 (finditer U date_pattern 3 text) 0) with (k := 10%nat)
      as [E|H].
    + eapply StronglySorted_refine; [|apply finditer_dates_gap].
      intros a b _ _ Hab. cbv beta in *. lia.
    + apply Forall_forall. intros m _. lia.
    + apply Forall_forall. intros m Hm.
      apply finditer_dates_in in Hm as (pre & w & post & -> & Ht & _ & _ & ->).
      cbn [m_end]. rewrite !length_app, (date_token_length U _ Ht). lia.
    + apply Forall_forall. intros m Hm.
      apply finditer_dates_in in Hm as (pre & w & post & _ & _ & _ & _ & ->).
      reflexivity.
    + rewrite E. simpl. lia.
    + lia.
  - unfold extract_secret_codes, findall_whole. rewrite length_map.
    destruct (spaced_count (length text) 0 (finditer U code_pattern 0 text) 0) with (k := 9%nat)
      as [E|H].
    + eapply StronglySorted_refine; [|apply scan_spaced].
      intros a b _ _ Hab. cbv beta in *. lia.
    + apply Forall_forall. intros m _. lia.
    + apply Forall_forall. intros m Hm.
      apply finditer_codes_in in Hm as (pre & w & post & -> & Ht & ->).
      cbn [m_end]. rewrite !length_app, (code_token_length U _ Ht). lia.
    + apply Forall_forall. intros m Hm.
      apply finditer_codes_in in Hm as (pre & w & post & _ & _ & ->).
      reflexivity.
    + rewrite E. simpl. lia.
    + lia.
Qed.
End SpacingTheorems.

(** ** Lists of tokens written out and read back *)

Section RoundTrips.
Variable U : unicode_db.

Lemma join_head sep (w : str) ws :
  exists rest, join sep (w :: ws) = w ++ rest /\
               (rest = [] \/ exists rest', rest = sep ++ rest').
Proof.
  destruct ws as [|w' ws].
  - exists []. simpl. rewrite app_nil_r. auto.
  - exists (sep ++ join sep (w' :: ws)). split; [reflexivity|]. right. eauto.
Qed.

Lemma extract_codes_nil : extract_secret_codes U [] = [].
Proof. reflexivity. Qed.

Lemma extract_dates_nil : extract_journal_dates U [] = [].
Proof. vm_compute. reflexivity. Qed.

Lemma extract_codes_cons c post :
  is_code_token U c = true ->
  extract_secret_codes U (c ++ post) = c :: extract_secret_codes U post.
Proof.
  intros Ht. change (c ++ post) with ([] ++ c ++ post).
  rewrite extract_codes_app by exact Ht. reflexivity.
Qed.

Lemma extract_dates_cons D post :
  is_date_token U D = true -> is_word_opt U (hd_error post) = false ->
  extract_journal_dates U (D ++ post) = D :: extract_journal_dates U post.
Proof.
  intros Ht Hn. change (D ++ post) with ([] ++ D ++ post).
  rewrite extract_dates_app by (try assumption; reflexivity).
  rewrite extract_dates_nil. reflexivity.
Qed.

(** X3: secret codes written one after the other, with or without a separator
    that holds no code itself, are read back as they were written. *)
Theorem codes_round_trip sep cs :
  Forall (fun c => is_code_token U c = true) cs ->
  extract_secret_codes U sep = [] ->
  extract_secret_codes U (join sep cs) = cs.
Proof.
  intros Hcs Hsep. induction cs as [|c cs IH]; [reflexivity|].
  apply Forall_cons_iff in Hcs as [Hc Hcs]. specialize (IH Hcs).
  destruct cs as [|c' cs].
  - cbn [join]. rewrite <- (app_nil_r c) at 1.
    rewrite extract_codes_cons by exact Hc. reflexivity.
  - change (join sep (c :: c' :: cs)) with (c ++ sep ++ join sep (c' :: cs)).
    rewrite extract_codes_cons by exact Hc. f_equal.
    apply Forall_cons_iff in Hcs as [Hc' _].
    destruct (join_head sep c' cs) as (rest & E & _).
    rewrite E in IH |- *.
    rewrite extract_codes_app, Hsep by exact Hc'.
    rewrite extract_codes_cons in IH by exact Hc'. exact IH.
Qed.

(** X4: dates written with a separator between them are read back as they were
    written, when the separator begins and ends with a character that is
    not a word character and holds no date itself. *)
Theorem dates_round_trip sep a ds :
  Forall (fun d => is_date_token U d = true) ds ->
  hd_error sep = Some a -> is_word U a = false ->
  is_word_opt U (last_char None sep) = false ->
  extract_journal_dates U sep = [] ->
  extract_journal_dates U (join sep ds) = ds.
Proof.
  intros Hds Ha Wa Hl Hsep.
  assert (Hrest : forall rest, rest = [] \/ (exists rest', rest = sep ++ rest') ->
                               is_word_opt U (hd_error rest) = false).
  { intros rest [->|[rest' ->]]; [reflexivity|].
    destruct sep as [|x sep']; [discriminate Ha|].
    simpl in Ha |- *. injection Ha as ->. exact Wa. }
  induction ds as [|d ds IH]; [apply extract_dates_nil|].
  apply Forall_cons_iff in Hds as [Hd Hds]. specialize (IH Hds).
  destruct ds as [|d' ds].
  - cbn [join]. rewrite <- (app_nil_r d) at 1.
    rewrite extract_dates_cons by (try exact Hd; reflexivity).
    rewrite extract_dates_nil. reflexivity.
  - change (join sep (d :: d' :: ds)) with (d ++ sep ++ join sep (d' :: ds)).
    rewrite extract_dates_cons by (try exact Hd; apply Hrest; eauto). f_equal.
    apply Forall_cons_iff in Hds as [Hd' _].
    destruct (join_head sep d' ds) as (rest & E & Hr).
    rewrite E in IH |- *.
    rewrite extract_dates_app, Hsep by (try assumption; apply Hrest; exact Hr).
    rewrite extract_dates_cons in IH by (try assumption; apply Hrest; exact Hr).
    exact IH.
Qed.
End RoundTrips.

(** ** Dates that run together *)

Section RunTogether.
Variable U : unicode_db.

(** No date starts inside the text of a date token, whatever follows. *)
Lemma date_token_inner w u v prev rest :
  is_date_token U w = true -> w = u ++ v -> u <> [] -> v <> [] ->
  date_here U (last_char prev u) (v ++ rest) = false.
Proof.
  intros Ht Huv Hu Hv.
  destruct (date_here U (last_char prev u) (v ++ rest)) eqn:Hd2; [exfalso|reflexivity].
  apply date_here_iff in Hd2 as (w' & rest' & Heq & Ht' & Hp' & _).
  apply date_token_inv in Ht
    as (m1 & m2 & s1 & d1 & d2 & s2 & y1 & y2 & y3 & y4 & -> & Hs1 & Hs2 & Hm & Hday & Hy).
  apply date_token_inv in Ht'
    as (n1 & n2 & t1 & e1 & e2 & t2 & z1 & z2 & z3 & z4 & -> & Ht1 & Ht2 & _).
  apply is_month_digits in Hm as [Hm1 Hm2].
  apply is_day_digits in Hday as [Hd1 Hd2].
  apply is_year_digits in Hy as (Hy1 & Hy2 & Hy3 & Hy4).
  assert (Wm1 : is_word U m1 = true)
    by (apply digit_word; eapply in_range_sub; [| |exact Hm1]; lia).
  assert (Wm2 : is_word U m2 = true) by (apply digit_word; exact Hm2).
  assert (Wd1 : is_word U d1 = true)
    by (apply digit_word; eapply in_range_sub; [| |exact Hd1]; lia).
  assert (Wd2 : is_word U d2 = true) by (apply digit_word; exact Hd2).
  assert (Wy1 : is_word U y1 = true)
    by (apply digit_word; eapply in_range_sub; [| |exact Hy1]; lia).
  assert (Wy2 : is_word U y2 = true) by (apply decimal_word; exact Hy2).
  assert (Wy3 : is_word U y3 = true) by (apply decimal_word; exact Hy3).
  destruct u as [|? u]; [contradiction Hu; reflexivity|].
  do 9 (cbn [app] in Huv; injection Huv as ? Huv; subst;
        destruct u as [|? u];
        [ cbn [app] in Huv; subst v;
          cbn [last_char fold_left is_word_opt] in Hp'; cbn [app] in Heq;
          first [ rewrite Wm1 in Hp' | rewrite Wm2 in Hp' | rewrite Wd1 in Hp'
                | rewrite Wd2 in Hp' | rewrite Wy1 in Hp' | rewrite Wy2 in Hp'
                | rewrite Wy3 in Hp'
                | injection Heq; intros; subst;
                  first [ rewrite (slash_not_decimal U _ Ht2) in Hy3
                        | rewrite (slash_not_decimal U _ Ht1) in Hy3 ] ];
          discriminate
        | ]).
  cbn [app] in Huv. injection Huv as ? Huv.
  symmetry in Huv. apply app_eq_nil in Huv as [_ ->]. contradiction Hv; reflexivity.
Qed.

(** A date token with a word character on either side is passed over
    whole. *)
Lemma occurrences_pass_token w prev pos rest :
  is_date_token U w = true ->
  is_word_opt U prev = true \/ is_word_opt U (hd_error rest) = true ->
  occurrences U date_pattern 3 prev pos (w ++ rest) =
  occurrences U date_pattern 3 (last_char prev w) (pos + length w) rest.
Proof.
  intros Ht Hadj. apply occurrences_skip. intros u v Huv Hv.
  rewrite exec_date.
  destruct u as [|x u].
  - simpl in Huv. subst v. cbn [last_char fold_left].
    destruct (date_here U prev (w ++ rest)) eqn:E; [exfalso|reflexivity].
    apply date_here_iff in E as (w' & rest' & E & Ht' & Hp & Hn).
    apply app_inv_length in E as [<- <-];
      [|rewrite (date_token_length U _ Ht), (date_token_length U _ Ht'); reflexivity].
    destruct Hadj; congruence.
  - rewrite (date_token_inner w (x :: u) v prev rest Ht Huv); [reflexivity|discriminate|exact Hv].
Qed.

Lemma occurrences_after_word : forall ds prev pos,
  Forall (fun d => is_date_token U d = true) ds ->
  is_word_opt U prev = true ->
  occurrences U date_pattern 3 prev pos (concat ds) = [].
Proof.
  induction ds as [|d ds IH]; intros prev pos Hds Hp.
  - cbn [concat occurrences]. rewrite exec_date.
    rewrite date_here_needs_word by reflexivity. reflexivity.
  - apply Forall_cons_iff in Hds as [Hd Hds].
    change (concat (d :: ds)) with (d ++ concat ds).
    rewrite occurrences_pass_token by (try exact Hd; left; exact Hp).
    apply IH; [exact Hds|].
    destruct (date_token_ends U _ Hd) as (a & b & _ & _ & Hl & Wb & _).
    rewrite Hl. exact Wb.
Qed.

(** X5: dates need something between them: two or more date tokens written one
    right after the other yield no date at all, where a single one is
    returned. *)
Theorem dates_run_together d d' ds :
  Forall (fun x => is_date_token U x = true) (d :: d' :: ds) ->
  extract_journal_dates U (concat (d :: d' :: ds)) = [] /\
  extract_journal_dates U d = [d].
Proof.
  intros Hds. apply Forall_cons_iff in Hds as [Hd Hds]. split.
  - rewrite extract_dates_whole, finditer_occurrences by apply date_apart.
    change (concat (d :: d' :: ds)) with (d ++ concat (d' :: ds)).
    rewrite occurrences_pass_token.
    + rewrite occurrences_after_word; [reflexivity|exact Hds|].
      destruct (date_token_ends U _ Hd) as (a & b & _ & _ & Hl & Wb & _).
      rewrite Hl. exact Wb.
    + exact Hd.
    + right. apply Forall_cons_iff in Hds as [Hd' _].
      destruct (date_token_ends U _ Hd') as (a & b & _ & Wa & _ & _ & Hh).
      cbn [concat]. rewrite Hh. exact Wa.
  - rewrite <- (app_nil_r d) at 1.
    rewrite extract_dates_cons by (try exact Hd; reflexivity).
    rewrite extract_dates_nil. reflexivity.
Qed.
End RunTogether.

(** ** Dates by their numbers *)

Section NumericDates.
Variable U : unicode_db.

Lemma forall_range (f : N -> bool) lo n :
  forallb (fun k => f (lo + N.of_nat k)) (seq 0 n) = true ->
  forall m, lo <= m < lo + N.of_nat n -> f m = true.
Proof.
  intros H m Hm. rewrite forallb_forall in H.
  specialize (H (N.to_nat (m - lo))).
  replace (lo + N.of_nat (N.to_nat (m - lo))) with m in H by lia.
  apply H. apply in_seq. lia.
Qed.

Lemma month_written m :
  1 <= m <= 12 ->
  is_month (digit_char (m / 10)) (digit_char (m mod 10)) = true /\
  reads_as U (two_digits m) m = true.
Proof.
  intros Hm.
  apply andb_true_iff.
  apply (forall_range
           (fun m => is_month (digit_char (m / 10)) (digit_char (m mod 10))
                     && reads_as U (two_digits m) m) 1 12);
    [vm_compute; reflexivity|lia].
Qed.

Lemma day_written d :
  1 <= d <= 31 ->
  is_day (digit_char (d / 10)) (digit_char (d mod 10)) = true /\
  reads_as U (two_digits d) d = true.
Proof.
  intros Hd.
  apply andb_true_iff.
  apply (forall_range
           (fun d => is_day (digit_char (d / 10)) (digit_char (d mod 10))
                     && reads_as U (two_digits d) d) 1 31);
    [vm_compute; reflexivity|lia].
Qed.

Lemma year_written y :
  1000 <= y <= 2999 ->
  is_year U (digit_char (y / 1000)) (digit_char (y / 100 mod 10))
            (digit_char (y / 10 mod 10)) (digit_char (y mod 10)) = true /\
  reads_as U (four_digits y) y = true.
Proof.
  intros Hy.
  apply andb_true_iff.
  apply (forall_range
           (fun y => is_year U (digit_char (y / 1000)) (digit_char (y / 100 mod 10))
                       (digit_char (y / 10 mod 10)) (digit_char (y mod 10))
                     && reads_as U (four_digits y) y) 1000 2000);
    [vm_compute; reflexivity|lia].
Qed.

Lemma reads_as_spec w n : reads_as U w n = true -> int_of U w = Some n.
Proof.
  unfold reads_as. destruct (int_of U w) as [v|]; [|discriminate].
  intros H. apply N.eqb_eq in H. subst v. reflexivity.
Qed.

(** X6: every month from 1 to 12 with every day from 1 to 31 and every year
    from 1000 to 2999, written MM/DD/YYYY between word boundaries, is
    returned, and reads back as the same three numbers: the day is not
    checked against the month. *)
Theorem numbers_in_range_accepted m d y pre post :
  1 <= m <= 12 -> 1 <= d <= 31 -> 1000 <= y <= 2999 ->
  is_word_opt U (last_char None pre) = false ->
  is_word_opt U (hd_error post) = false ->
  extract_journal_dates U (pre ++ format_date m d y ++ post) =
    extract_journal_dates U pre ++ format_date m d y :: extract_journal_dates U post /\
  date_fields (format_date m d y) = [two_digits m; two_digits d; four_digits y] /\
  int_of U (two_digits m) = Some m /\
  int_of U (two_digits d) = Some d /\
  int_of U (four_digits y) = Some y.
Proof.
  intros Hm Hd Hy Hp Hn.
  destruct (month_written m Hm) as [Tm Rm].
  destruct (day_written d Hd) as [Td Rd].
  destruct (year_written y Hy) as [Ty Ry].
  assert (Ht : is_date_token U (format_date m d y) = true).
  { unfold format_date, two_digits, four_digits.
    change (py "/") with ["/"%c]. cbn [app is_date_token].
    rewrite Tm, Td, Ty. reflexivity. }
  split; [apply extract_dates_app; assumption|].
  split; [reflexivity|].
  repeat split; apply reads_as_spec; assumption.
Qed.
End NumericDates.

(** February 31st of 2024, in a sentence. *)
Lemma numbers_in_range_accepted_witness :
  extract_journal_dates ascii_only (py "due " ++ format_date 2 31 2024 ++ py "!") =
    extract_journal_dates ascii_only (py "due ") ++ format_date 2 31 2024
      :: extract_journal_dates ascii_only (py "!") /\
  date_fields (format_date 2 31 2024) = [two_digits 2; two_digits 31; four_digits 2024] /\
  int_of ascii_only (two_digits 2) = Some 2 /\
  int_of ascii_only (two_digits 31) = Some 31 /\
  int_of ascii_only (four_digits 2024) = Some 2024.
Proof.
  apply (numbers_in_range_accepted ascii_only 2 31 2024 (py "due ") (py "!"));
    (lia || reflexivity).
Defined.

(** ** Line by line *)

Section Lines.
Variable U : unicode_db.

Lemma firstn_app_short (n : nat) (u rest : str) :
  (length u <= n)%nat -> firstn n (u ++ rest) = u ++ firstn (n - length u) rest.
Proof. intros H. rewrite firstn_app, (firstn_all2 u) by exact H. reflexivity. Qed.

Lemma firstn_app_long (n : nat) (u rest : str) :
  (n <= length u)%nat -> firstn n (u ++ rest) = firstn n u.
Proof.
  intros H. rewrite firstn_app.
  replace (n - length u)%nat with 0%nat by lia.
  rewrite firstn_0, app_nil_r. reflexivity.
Qed.

(** The characters of a date token are word characters and slashes. *)
Lemma date_token_chars w ch :
  is_date_token U w = true -> In ch w -> is_word U ch = true \/ is_char "/" ch = true.
Proof.
  intros Ht Hin. apply date_token_inv in Ht
    as (m1 & m2 & s1 & d1 & d2 & s2 & y1 & y2 & y3 & y4 & -> & Hs1 & Hs2 & Hm & Hday & Hy).
  apply is_month_digits in Hm as [Hm1 Hm2].
  apply is_day_digits in Hday as [Hd1 Hd2].
  apply is_year_digits in Hy as (Hy1 & Hy2 & Hy3 & Hy4).
  assert (R : forall lo hi x, "0"%c <= lo -> hi <= "9"%c -> in_range lo hi x = true ->
                              is_word U x = true).
  { intros lo hi x H1 H2 H. apply digit_word. eapply in_range_sub; [| |exact H]; assumption. }
  simpl in Hin.
  repeat (destruct Hin as [<-|Hin];
          [first [right; assumption
                 |left; first [eapply R; [| |eassumption]; lia
                              |apply decimal_word; assumption]]|]).
  destruct Hin.
Qed.

(** A date is looked for in the same way whatever the character before,
    as long as it is a word character or not in both cases. *)
Lemma date_here_prev p p' s :
  is_word_opt U p = is_word_opt U p' -> date_here U p s = date_here U p' s.
Proof.
  intros H. unfold date_here, at_boundary. rewrite H.
  destruct s as [|x s'].
  - cbn [firstn is_date_token]. rewrite !andb_false_r. reflexivity.
  - cbn [firstn last_char fold_left]. reflexivity.
Qed.

Lemma date_here_cut prev x s c b :
  is_word U c = false -> is_char "/" c = false ->
  date_here U prev ((x :: s) ++ c :: b) = date_here U prev (x :: s).
Proof.
  intros Wc Sc.
  destruct (Nat.lt_trichotomy (length (x :: s)) 10) as [Hlen|[Hlen|Hlen]].
  - assert (E2 : date_here U prev (x :: s) = false).
    { destruct (date_here U prev (x :: s)) eqn:E; [exfalso|reflexivity].
      apply date_here_iff in E as (w & r & E & Ht & _).
      apply (f_equal (@length _)) in E. rewrite length_app in E.
      rewrite (date_token_length U _ Ht) in E. lia. }
    rewrite E2.
    destruct (date_here U prev ((x :: s) ++ c :: b)) eqn:E; [exfalso|reflexivity].
    unfold date_here in E. rewrite !andb_true_iff in E. destruct E as [[_ Ht] _].
    rewrite firstn_app_short in Ht by lia.
    destruct (10 - length (x :: s))%nat as [|k] eqn:Ek; [lia|].
    cbn [firstn] in Ht.
    destruct (date_token_chars _ c Ht) as [H|H]; [|congruence|congruence].
    apply in_or_app. right. left. reflexivity.
  - unfold date_here.
    rewrite (firstn_token 10 (x :: s) (c :: b) Hlen).
    rewrite (skipn_token 10 (x :: s) (c :: b) Hlen).
    rewrite (firstn_all2 (x :: s)), (skipn_all2 (x :: s)) by lia.
    unfold at_boundary. cbn [hd_error is_word_opt]. rewrite Wc. reflexivity.
  - unfold date_here.
    rewrite firstn_app_long by lia. rewrite skipn_app.
    replace (10 - length (x :: s))%nat with 0%nat by lia. rewrite skipn_O.
    assert (Hh : hd_error (skipn 10 (x :: s) ++ c :: b) = hd_error (skipn 10 (x :: s))).
    { destruct (skipn 10 (x :: s)) eqn:Es; [|reflexivity].
      apply (f_equal (@length _)) in Es. rewrite length_skipn in Es.
      change (length (@nil char)) with 0%nat in Es. lia. }
    rewrite Hh. reflexivity.
Qed.

Lemma occurrences_prev p p' pos pos' s :
  is_word_opt U p = is_word_opt U p' ->
  map m_whole (occurrences U date_pattern 3 p pos s) =
  map m_whole (occurrences U date_pattern 3 p' pos' s).
Proof.
  intros H. destruct s as [|x s']; cbn [occurrences]; rewrite !exec_date, !map_app.
  - rewrite (date_here_prev p p' [] H).
    destruct (date_here U p' []); reflexivity.
  - rewrite (date_here_prev p p' (x :: s') H).
    rewrite (occurrences_wholes U date_pattern 3 s' (Some x) (S pos) (S pos')).
    destruct (date_here U p' (x :: s')); reflexivity.
Qed.

Lemma dates_cut : forall a prev pos c b,
  is_word U c = false -> is_char "/" c = false ->
  map m_whole (occurrences U date_pattern 3 prev pos (a ++ c :: b)) =
  map m_whole (occurrences U date_pattern 3 prev pos a) ++
  map m_whole (occurrences U date_pattern 3 None 0 b).
Proof.
  induction a as [|x s IH]; intros prev pos c b Wc Sc.
  - cbn [app occurrences]. rewrite !exec_date, !map_app.
    rewrite !date_here_needs_word by (cbn [hd_error is_word_opt]; auto).
    cbn [map app]. apply occurrences_prev. cbn [is_word_opt]. exact Wc.
  - change ((x :: s) ++ c :: b) with (x :: (s ++ c :: b)).
    cbn [occurrences]. rewrite !map_app, (IH (Some x) (S pos) c b Wc Sc).
    rewrite <- app_assoc. f_equal.
    rewrite !exec_date.
    change (x :: s ++ c :: b) with ((x :: s) ++ c :: b).
    rewrite (date_here_cut prev x s c b Wc Sc).
    destruct (date_here U prev (x :: s)) eqn:E; [|reflexivity].
    cbn [map m_whole o_read].
    apply date_here_iff in E as (w & r & E & Ht & _).
    rewrite E, <- app_assoc.
    rewrite !(firstn_token 10) by (apply (date_token_length U); exact Ht).
    reflexivity.
Qed.

Lemma extract_dates_cut a c b :
  is_word U c = false -> is_char "/" c = false ->
  extract_journal_dates U (a ++ c :: b) =
  extract_journal_dates U a ++ extract_journal_dates U b.
Proof.
  intros Wc Sc.
  rewrite !extract_dates_whole, !finditer_occurrences by apply date_apart.
  apply dates_cut; assumption.
Qed.

(** The characters of a secret code are those of "AZMAR-" and digits. *)
Lemma code_token_chars w ch :
  is_code_token U w = true -> In ch w ->
  In ch (py "AZMAR-") \/ is_decimal U ch = true.
Proof.
  intros Ht Hin. apply code_token_text in Ht as (d1 & d2 & d3 & -> & H1 & H2 & H3).
  apply in_app_or in Hin as [Hin|Hin]; [left; exact Hin|right].
  simpl in Hin. destruct Hin as [<-|[<-|[<-|[]]]]; assumption.
Qed.

Lemma code_here_cut x s c b :
  ~ In c (py "AZMAR-") -> is_decimal U c = false ->
  code_here U ((x :: s) ++ c :: b) = code_here U (x :: s).
Proof.
  intros Hc Dc. unfold code_here.
  destruct (Nat.le_gt_cases 9 (length (x :: s))) as [Hlen|Hlen].
  - rewrite firstn_app_long by exact Hlen. reflexivity.
  - assert (E2 : is_code_token U (firstn 9 (x :: s)) = false).
    { destruct (is_code_token U (firstn 9 (x :: s))) eqn:E; [exfalso|reflexivity].
      apply code_token_length in E. rewrite firstn_all2 in E by lia. lia. }
    rewrite E2.
    destruct (is_code_token U (firstn 9 ((x :: s) ++ c :: b))) eqn:E; [exfalso|reflexivity].
    rewrite firstn_app_short in E by lia.
    destruct (9 - length (x :: s))%nat as [|k] eqn:Ek; [lia|].
    cbn [firstn] in E.
    destruct (code_token_chars _ c E) as [H|H]; [|contradiction|congruence].
    apply in_or_app. right. left. reflexivity.
Qed.

Lemma codes_left_to_right_cut a c b l1 l2 :
  ~ In c (py "AZMAR-") -> is_decimal U c = false ->
  codes_left_to_right U a l1 -> codes_left_to_right U b l2 ->
  codes_left_to_right U (a ++ c :: b) (l1 ++ l2).
Proof.
  intros Hc Dc H1 H2. induction H1 as [|w rest l Hw _ IH|x s l Hx _ IH].
  - simpl. apply codes_pass; [|exact H2].
    destruct (code_here U (c :: b)) eqn:E; [exfalso|reflexivity].
    apply code_here_iff in E as (w & rest & E & Ht).
    destruct (code_token_chars w c Ht) as [H|H]; [|contradiction|congruence].
    pose proof (code_token_length U _ Ht) as Hl.
    destruct w as [|w0 w]; [discriminate Hl|].
    injection E as <- _. left. reflexivity.
  - rewrite <- app_assoc. apply (codes_take U w); assumption.
  - change ((x :: s) ++ c :: b) with (x :: (s ++ c :: b)).
    apply codes_pass; [|exact IH].
    change (x :: s ++ c :: b) with ((x :: s) ++ c :: b).
    rewrite code_here_cut; assumption.
Qed.

Lemma extract_codes_cut a c b :
  ~ In c (py "AZMAR-") -> is_decimal U c = false ->
  extract_secret_codes U (a ++ c :: b) =
  extract_secret_codes U a ++ extract_secret_codes U b.
Proof.
  intros Hc Dc. symmetry. apply codes_left_to_right_unique.
  apply codes_left_to_right_cut; try assumption; apply codes_left_to_right_extract.
Qed.

(** X7: the dates of a journal are the dates of its lines, one line after the
    other: so it is for every separator that is neither a word character
    nor a slash, the line feed among them. *)
Theorem dates_line_by_line c lines :
  is_word U c = false -> is_char "/" c = false ->
  extract_journal_dates U (join [c] lines) =
  concat (map (extract_journal_dates U) lines).
Proof.
  intros Wc Sc. induction lines as [|l ls IH]; [apply extract_dates_nil|].
  destruct ls as [|l' ls].
  - cbn [join map concat]. rewrite app_nil_r. reflexivity.
  - change (join [c] (l :: l' :: ls)) with (l ++ c :: join [c] (l' :: ls)).
    rewrite extract_dates_cut by assumption. rewrite IH. reflexivity.
Qed.

(** X8: the secret codes of a journal are the codes of its lines, one line
    after the other: so it is for every separator that is no digit and no
    character of "AZMAR-", the line feed among them. *)
Theorem codes_line_by_line c lines :
  ~ In c (py "AZMAR-") -> is_decimal U c = false ->
  extract_secret_codes U (join [c] lines) =
  concat (map (extract_secret_codes U) lines).
Proof.
  intros Hc Dc. induction lines as [|l ls IH]; [reflexivity|].
  destruct ls as [|l' ls].
  - cbn [join map concat]. rewrite app_nil_r. reflexivity.
  - change (join [c] (l :: l' :: ls)) with (l ++ c :: join [c] (l' :: ls)).
    rewrite extract_codes_cut by assumption. rewrite IH. reflexivity.
Qed.
End Lines.

(** ** Digits of other scripts *)

Section OtherScripts.
Variable U : unicode_db.

(** X9: the month, the day and the first digit of the year are ASCII digits,
    while the rest of the year, and the number of a secret code, may be
    decimal digits of any script. *)
Theorem digits_of_other_scripts :
  (forall text d, In d (extract_journal_dates U text) ->
     exists m1 m2 d1 d2 y1 rest,
       d = m1 :: m2 :: "/"%c :: d1 :: d2 :: "/"%c :: y1 :: rest /\
       Forall (fun c => in_range "0" "9" c = true) [m1; m2; d1; d2; y1]) /\
  (forall m1 m2 d1 d2 y1 y2 y3 y4,
     is_month m1 m2 = true -> is_day d1 d2 = true -> in_range "1" "2" y1 = true ->
     is_decimal U y2 = true -> is_decimal U y3 = true -> is_decimal U y4 = true ->
     extract_journal_dates U [m1; m2; "/"%c; d1; d2; "/"%c; y1; y2; y3; y4] =
     [[m1; m2; "/"%c; d1; d2; "/"%c; y1; y2; y3; y4]]) /\
  (forall d1 d2 d3,
     is_decimal U d1 = true -> is_decimal U d2 = true -> is_decimal U d3 = true ->
     extract_secret_codes U (py "AZMAR-" ++ [d1; d2; d3]) = [py "AZMAR-" ++ [d1; d2; d3]]).
Proof.
  split; [|split].
  - intros text d Hd. apply extract_dates_in in Hd as (_ & _ & _ & Ht & _).
    apply date_token_inv in Ht
      as (m1 & m2 & s1 & d1 & d2 & s2 & y1 & y2 & y3 & y4 & -> & Hs1 & Hs2 & Hm & Hday & Hy).
    apply is_char_spec in Hs1, Hs2. subst s1 s2.
    apply is_month_digits in Hm as [Hm1 Hm2].
    apply is_day_digits in Hday as [Hd1 Hd2].
    apply is_year_digits in Hy as (Hy1 & _).
    exists m1, m2, d1, d2, y1, [y2; y3; y4]. split; [reflexivity|].
    repeat constructor; try assumption;
      (eapply in_range_sub; [| |eassumption]; lia).
  - intros m1 m2 d1 d2 y1 y2 y3 y4 Hm Hd Hy1 Hy2 Hy3 Hy4.
    assert (Ht : is_date_token U [m1; m2; "/"%c; d1; d2; "/"%c; y1; y2; y3; y4] = true).
    { cbn [is_date_token]. rewrite Hm, Hd. unfold is_year. rewrite Hy2, Hy3, Hy4.
      apply in_range_spec in Hy1.
      assert (E : is_char "1" y1 || is_char "2" y1 = true).
      { apply orb_true_iff. rewrite !is_char_spec. lia. }
      rewrite E. reflexivity. }
    rewrite <- (app_nil_r [m1; m2; "/"%c; d1; d2; "/"%c; y1; y2; y3; y4]) at 1.
    rewrite extract_dates_cons by (try exact Ht; reflexivity).
    rewrite extract_dates_nil. reflexivity.
  - intros d1 d2 d3 H1 H2 H3.
    assert (Ht : is_code_token U (py "AZMAR-" ++ [d1; d2; d3]) = true)
      by (apply code_token_text; exists d1, d2, d3; auto).
    rewrite <- (app_nil_r (py "AZMAR-" ++ [d1; d2; d3])) at 1.
    rewrite extract_codes_cons by exact Ht. reflexivity.
Qed.
End OtherScripts.

(** The year 2024 with its last three digits in Arabic-Indic script. *)
Lemma digits_of_other_scripts_witness :
  extract_journal_dates arabic_indic_digits (py "01/02/2" ++ [1632; 1634; 1636]) =
  [py "01/02/2" ++ [1632; 1634; 1636]].
Proof.
  apply (proj1 (proj2 (digits_of_other_scripts arabic_indic_digits))); reflexivity.
Defined.

(** ** Longer texts *)

Section Longer.
Variable U : unicode_db.

Lemma codes_short s l :
  codes_left_to_right U s l -> (length s < 9)%nat -> l = [].
Proof.
  induction 1 as [|w rest l Ht _ IH|c s l Hc _ IH]; intros Hlen.
  - reflexivity.
  - rewrite length_app, (code_token_length U _ Ht) in Hlen. lia.
  - apply IH. simpl in Hlen. lia.
Qed.

Lemma codes_left_to_right_longer a b l1 :
  codes_left_to_right U a l1 ->
  exists l, codes_left_to_right U (a ++ b) (l1 ++ l).
Proof.
  induction 1 as [|w rest l Ht _ IH|x s l Hx H1 IH].
  - exists (extract_secret_codes U b). apply codes_left_to_right_extract.
  - destruct IH as (l' & IH). exists l'. rewrite <- app_assoc.
    apply (codes_take U w); assumption.
  - destruct (code_here U ((x :: s) ++ b)) eqn:E.
    + assert (Hlen : (length (x :: s) < 9)%nat).
      { destruct (Nat.le_gt_cases 9 (length (x :: s))) as [Hl|Hl]; [|exact Hl].
        unfold code_here in E, Hx. rewrite firstn_app_long in E by exact Hl. congruence. }
      rewrite (codes_short s l H1) by (simpl in Hlen; lia).
      exists (extract_secret_codes U ((x :: s) ++ b)).
      apply codes_left_to_right_extract.
    + destruct IH as (l' & IH). exists l'.
      change ((x :: s) ++ b) with (x :: (s ++ b)) in *.
      apply codes_pass; assumption.
Qed.

(** X10: text added at the end of a journal leaves the secret codes found so far
    first in the result, unchanged and in the same order; a date, in
    contrast, is lost when a word character is added right behind it. *)
Theorem codes_kept_when_text_grows :
  (forall a b, exists l,
     extract_secret_codes U (a ++ b) = extract_secret_codes U a ++ l) /\
  (forall D c, is_date_token U D = true -> is_word U c = true ->
     extract_journal_dates U D = [D] /\ extract_journal_dates U (D ++ [c]) = []).
Proof.
  split.
  - intros a b.
    destruct (codes_left_to_right_longer a b _ (codes_left_to_right_extract U a)) as (l & H).
    exists l. symmetry. apply codes_left_to_right_unique. exact H.
  - intros D c Ht Wc. split.
    + rewrite <- (app_nil_r D) at 1.
      rewrite extract_dates_cons by (try exact Ht; reflexivity).
      rewrite extract_dates_nil. reflexivity.
    + rewrite extract_dates_whole, finditer_occurrences by apply date_apart.
      rewrite occurrences_pass_token by (try exact Ht; right; exact Wc).
      assert (E1 : forall p, date_here U p [c] = false).
      { intros p. destruct (date_here U p [c]) eqn:E; [exfalso|reflexivity].
        apply date_here_iff in E as (w & r & E & Ht' & _).
        apply (f_equal (@length _)) in E. rewrite length_app in E.
        rewrite (date_token_length U _ Ht') in E. simpl in E. lia. }
      cbn [occurrences]. rewrite !exec_date, E1.
      rewrite date_here_needs_word by reflexivity. reflexivity.
Qed.
End Longer.

(** A list of three codes, separated by a comma and a space. *)
Lemma codes_round_trip_witness :
  extract_secret_codes ascii_only
    (join (py ", ") [py "AZMAR-001"; py "AZMAR-002"; py "AZMAR-001"]) =
  [py "AZMAR-001"; py "AZMAR-002"; py "AZMAR-001"].
Proof.
  apply (codes_round_trip ascii_only (py ", ")
           [py "AZMAR-001"; py "AZMAR-002"; py "AZMAR-001"]);
    [repeat constructor|reflexivity].
Defined.

(** A list of two dates, separated by a comma and a space. *)
Lemma dates_round_trip_witness :
  extract_journal_dates ascii_only
    (join (py ", ") [py "03/15/2024"; py "02/31/1999"]) =
  [py "03/15/2024"; py "02/31/1999"].
Proof.
  apply (dates_round_trip ascii_only (py ", ") (chr ",")
           [py "03/15/2024"; py "02/31/1999"]);
    [repeat constructor|reflexivity..].
Defined.

(** Two dates with nothing between them. *)
Lemma dates_run_together_witness :
  extract_journal_dates ascii_only (concat [py "03/15/2024"; py "03/16/2024"]) = [] /\
  extract_journal_dates ascii_only (py "03/15/2024") = [py "03/15/2024"].
Proof.
  apply (dates_run_together ascii_only (py "03/15/2024") (py "03/16/2024") []).
  repeat constructor.
Defined.

(** Three lines joined by line feeds. *)
Lemma dates_line_by_line_witness :
  extract_journal_dates ascii_only
    (join [10] [py "on 03/15/2024"; py "nothing"; py "04/01/2023, AZMAR-007"]) =
  concat (map (extract_journal_dates ascii_only)
              [py "on 03/15/2024"; py "nothing"; py "04/01/2023, AZMAR-007"]).
Proof.
  apply (dates_line_by_line ascii_only 10); reflexivity.
Defined.

(** The same three lines, read for codes. *)
Lemma codes_line_by_line_witness :
  extract_secret_codes ascii_only
    (join [10] [py "on 03/15/2024"; py "nothing"; py "04/01/2023, AZMAR-007"]) =
  concat (map (extract_secret_codes ascii_only)
              [py "on 03/15/2024"; py "nothing"; py "04/01/2023, AZMAR-007"]).
Proof.
  apply (codes_line_by_line ascii_only 10); [|reflexivity].
  intros H. vm_compute in H.
  repeat (destruct H as [H|H]; [discriminate H|]). exact H.
Defined.

(** A date at the end of a text, and the same text with a letter added. *)
Lemma codes_kept_when_text_grows_witness :
  extract_journal_dates ascii_only (py "03/15/2024") = [py "03/15/2024"] /\
  extract_journal_dates ascii_only (py "03/15/2024" ++ [chr "x"]) = [].
Proof.
  apply (proj2 (codes_kept_when_text_grows ascii_only)); reflexivity.
Defined.
